(** * BookIt: slot capacity, booking and promo validation

    A shallow embedding of the two edge functions of the BookIt storefront
    ([supabase/functions/bookings/index.ts] and the promo-validate function)
    together with the part of the database schema they run against
    (the [slots], [bookings], [experiences] and [promo_codes] relations of the
    migration, with their [CHECK], [UNIQUE], [NOT NULL] and foreign-key
    constraints).

    Conventions of the embedding.
    - JSON numbers that count guests or seats are integers ([Z]); a guest
      count with a fractional part is refused by the [integer] column and
      never reaches the counter.
    - Monetary JSON numbers are exact rationals ([Q]); the rounding of
      [decimal(10,2)] columns and of IEEE doubles is not modelled.
    - An absent (or [null]) JSON field is [None].
    - Instants are integers (milliseconds since the epoch).
    - [Math.random] is an oracle [nat -> Q]: its [k]-th value is the result
      of the [k]-th call within one invocation.
    - Every handler returns, besides its response and the new store, the
      list of store calls it issued, in program order. *)

From Stdlib Require Import ZArith QArith Qround Qminmax String Ascii List Lia.
From stdpp Require Import gmap strings list fin_maps.

Local Open Scope string_scope.
Local Open Scope Z_scope.

(* ------------------------------------------------------------------ *)
(** ** JavaScript primitives used by the handlers                       *)
(* ------------------------------------------------------------------ *)

Module JS.

(** [!x] is [negb (truthy x)]: a string is falsy when absent or empty,
    a number when absent or zero. *)
Definition truthy_string (x : option string) : bool :=
  match x with
  | None => false
  | Some s => negb (String.eqb s "")
  end.

Definition truthy_int (x : option Z) : bool :=
  match x with
  | None => false
  | Some n => negb (n =? 0)
  end.

Definition truthy_num (x : option Q) : bool :=
  match x with
  | None => false
  | Some q => negb (Qeq_bool q 0)
  end.

(** [x || d] on an optional number and on an optional string. *)
Definition or_num (x : option Q) (d : Q) : Q :=
  match x with
  | Some q => if Qeq_bool q 0 then d else q
  | None => d
  end.

Definition or_null (x : option string) : option string :=
  if truthy_string x then x else None.

(** [a < b] and [a > b] on numbers. *)
Definition lt_num (a b : Q) : bool := negb (Qle_bool b a).
Definition gt_num (a b : Q) : bool := negb (Qle_bool a b).

(** [Math.min(a, b)]. *)
Definition Math_min (a b : Q) : Q := if Qle_bool a b then a else b.

(** [Math.floor]. *)
Definition Math_floor (q : Q) : Z := Qfloor q.

(** [s.charAt(i)]: the one-character string at index [i], the empty
    string when [i] is out of range. *)
Definition charAt (s : string) (i : Z) : string :=
  if i <? 0 then ""
  else match String.get (Z.to_nat i) s with
       | Some c => String c EmptyString
       | None => ""
       end.

(** [s.toUpperCase()] on ASCII text. *)
Definition upper_ascii (c : ascii) : ascii :=
  let n := nat_of_ascii c in
  if ((97 <=? n) && (n <=? 122))%nat then ascii_of_nat (n - 32) else c.

Fixpoint toUpperCase (s : string) : string :=
  match s with
  | EmptyString => EmptyString
  | String c r => String (upper_ascii c) (toUpperCase r)
  end.

End JS.

(* ------------------------------------------------------------------ *)
(** ** The relations of the schema                                      *)
(* ------------------------------------------------------------------ *)

(** A row of [experiences], reduced to its title and its price per guest. *)
Record Experience := mkExperience {
  exp_title : string;
  exp_price : Q
}.

(** A row of [slots]; the primary key is the key of the map holding it. *)
Record Slot := mkSlot {
  slot_experience_id : string;
  slot_date : string;
  slot_time : string;
  capacity : Z;
  booked : Z
}.

(** A row of [bookings] (the generated [id] and [created_at] columns are
    left out). *)
Record Booking := mkBooking {
  experience_id : string;
  slot_id : string;
  customer_name : string;
  customer_email : string;
  customer_phone : string;
  num_guests : Z;
  base_amount : Q;
  discount_amount : Q;
  final_amount : Q;
  promo_code : option string;
  status : string;
  booking_reference : string
}.

Inductive DiscountType := percentage | fixed.

(** A row of [promo_codes]; [code] (unique) is the key of the map. *)
Record PromoCode := mkPromoCode {
  discount_type : DiscountType;
  discount_value : Q;
  min_amount : option Q;
  max_discount : option Q;
  valid_from : option Z;
  valid_until : Z;
  is_active : bool
}.

Record Store := mkStore {
  experiences : gmap string Experience;
  slots : gmap string Slot;
  bookings : list Booking;
  promo_codes : gmap string PromoCode
}.

(** The object handed to [insert] on [bookings]: [base_amount] and
    [final_amount] may be [undefined]. *)
Record NewBooking := mkNewBooking {
  nb_experience_id : string;
  nb_slot_id : string;
  nb_customer_name : string;
  nb_customer_email : string;
  nb_customer_phone : string;
  nb_num_guests : Z;
  nb_base_amount : option Q;
  nb_discount_amount : Q;
  nb_final_amount : option Q;
  nb_promo_code : option string;
  nb_status : string;
  nb_booking_reference : string
}.

(** Errors the store answers with. *)
Inductive StoreError :=
| NotNullViolation (column : string)
| CheckViolation (constraint : string)
| UniqueViolation (constraint : string)
| ForeignKeyViolation (constraint : string).

(** The [message] of a store error (the wording is the store's own and
    plays no part below). *)
Definition message (e : StoreError) : string :=
  match e with
  | NotNullViolation c => "null value in column " +:+ c +:+ " violates not-null constraint"
  | CheckViolation c => "new row violates check constraint " +:+ c
  | UniqueViolation c => "duplicate key value violates unique constraint " +:+ c
  | ForeignKeyViolation c => "insert or update violates foreign key constraint " +:+ c
  end.

(** The store calls a handler can issue. *)
Inductive Call :=
| SelectSlot (id : string)
| InsertBooking (row : NewBooking)
| UpdateSlot (id : string) (new_booked : Z)
| SelectPromo (code : string).

Module Db.

(** [from('slots').select('*').eq('id', id).single()] *)
Definition select_slot (db : Store) (id : string) : option Slot :=
  slots db !! id.

(** [CONSTRAINT valid_booked CHECK (booked >= 0 AND booked <= capacity)],
    evaluated on each row written to [slots]. *)
Definition valid_booked (s : Slot) : bool :=
  (0 <=? booked s) && (booked s <=? capacity s).

Definition reference_taken (db : Store) (r : string) : bool :=
  existsb (fun b => String.eqb (booking_reference b) r) (bookings db).

(** [from('bookings').insert(row).select().single()]: the row is stored
    when it meets the constraints of [bookings]: [base_amount] and
    [final_amount] are [NOT NULL], [valid_guests CHECK (num_guests > 0)],
    [booking_reference] is [UNIQUE], and [experience_id] and [slot_id]
    reference existing rows. *)
Definition insert_booking (db : Store) (row : NewBooking)
  : StoreError + (Booking * Store) :=
  match nb_base_amount row, nb_final_amount row with
  | None, _ => inl (NotNullViolation "base_amount")
  | Some _, None => inl (NotNullViolation "final_amount")
  | Some base, Some final =>
    if negb (0 <? nb_num_guests row) then inl (CheckViolation "valid_guests")
    else if reference_taken db (nb_booking_reference row)
    then inl (UniqueViolation "bookings_booking_reference_key")
    else match experiences db !! nb_experience_id row with
    | None => inl (ForeignKeyViolation "bookings_experience_id_fkey")
    | Some _ =>
      match slots db !! nb_slot_id row with
      | None => inl (ForeignKeyViolation "bookings_slot_id_fkey")
      | Some _ =>
        let b := {| experience_id := nb_experience_id row;
                    slot_id := nb_slot_id row;
                    customer_name := nb_customer_name row;
                    customer_email := nb_customer_email row;
                    customer_phone := nb_customer_phone row;
                    num_guests := nb_num_guests row;
                    base_amount := base;
                    discount_amount := nb_discount_amount row;
                    final_amount := final;
                    promo_code := nb_promo_code row;
                    status := nb_status row;
                    booking_reference := nb_booking_reference row |} in
        inr (b, {| experiences := experiences db;
                   slots := slots db;
                   bookings := bookings db ++ [b];
                   promo_codes := promo_codes db |})
      end
    end
  end.

(** The row [s] after [SET booked = v]. *)
Definition with_booked (s : Slot) (v : Z) : Slot :=
  {| slot_experience_id := slot_experience_id s;
     slot_date := slot_date s;
     slot_time := slot_time s;
     capacity := capacity s;
     booked := v |}.

(** [from('slots').update({ booked: v }).eq('id', id)]: no row matching
    is no error; a matching row is rewritten when [valid_booked] holds
    of the new row. *)
Definition update_slot_booked (db : Store) (id : string) (v : Z)
  : StoreError + Store :=
  match slots db !! id with
  | None => inr db
  | Some s =>
    let s' := with_booked s v in
    if valid_booked s'
    then inr {| experiences := experiences db;
                slots := <[id := s']> (slots db);
                bookings := bookings db;
                promo_codes := promo_codes db |}
    else inl (CheckViolation "valid_booked")
  end.

(** [from('promo_codes').select('*').eq('code', c).eq('is_active', true)
    .single()] *)
Definition select_active_promo (db : Store) (c : string) : option PromoCode :=
  match promo_codes db !! c with
  | Some p => if is_active p then Some p else None
  | None => None
  end.

End Db.

(* ------------------------------------------------------------------ *)
(** ** Requests and responses                                           *)
(* ------------------------------------------------------------------ *)

Inductive Method := OPTIONS | POST | OtherMethod (name : string).

(** What [req.json()] yields for a booking request (interface
    [BookingRequest] of the client). *)
Record BookingRequest := mkBookingRequest {
  experienceId : option string;
  slotId : option string;
  customerName : option string;
  customerEmail : option string;
  customerPhone : option string;
  numGuests : option Z;
  baseAmount : option Q;
  discountAmount : option Q;
  finalAmount : option Q;
  promoCode : option string
}.

(** What [req.json()] yields for a promo validation. *)
Record PromoRequest := mkPromoRequest {
  code : option string;
  amount : option Q
}.

(** The [error] text of a negative promo verdict; the last one stands for
    the template [`Minimum purchase of $${promo.min_amount} required`]. *)
Inductive PromoError :=
| InvalidPromoCode
| PromoExpired
| MinimumPurchase (min : Q).

Definition promo_error_text (show : Q -> string) (e : PromoError) : string :=
  match e with
  | InvalidPromoCode => "Invalid promo code"
  | PromoExpired => "Promo code has expired"
  | MinimumPurchase m => "Minimum purchase of $" +:+ show m +:+ " required"
  end.

(** The JSON body of a response: [null], [{ error }], [{ data }],
    [{ valid: false, error }] and [{ valid: true, discount, finalAmount }]. *)
Inductive Body :=
| NoBody
| ErrorBody (error : string)
| DataBody (data : Booking)
| InvalidBody (error : PromoError)
| ValidBody (discount : Q) (final : Q).

Record Response := mkResponse {
  http_status : Z;
  body : Body
}.

(* ------------------------------------------------------------------ *)
(** ** [supabase/functions/bookings/index.ts]                           *)
(* ------------------------------------------------------------------ *)

Definition chars : string := "ABCDEFGHIJKLMNOPQRSTUVWXYZ0123456789".

(** The body of the [for] loop of [generateBookingReference], run for the
    [n] rounds that start at index [i]. *)
Fixpoint reference_loop (random : nat -> Q) (n i : nat) (result : string)
  : string :=
  match n with
  | O => result
  | S n' =>
    reference_loop random n' (S i)
      (result +:+
       JS.charAt chars
         (JS.Math_floor (random i * inject_Z (Z.of_nat (String.length chars)))))
  end.

Definition generateBookingReference (random : nat -> Q) : string :=
  reference_loop random 8 0 "BK".

(** The outcome of one invocation: the response, the store it leaves and
    the store calls it issued, oldest first. *)
Record Outcome := mkOutcome {
  response : Response;
  store : Store;
  calls : list Call
}.

Definition missing_required (r : BookingRequest) : bool :=
  negb (JS.truthy_string (experienceId r))
  || negb (JS.truthy_string (slotId r))
  || negb (JS.truthy_string (customerName r))
  || negb (JS.truthy_string (customerEmail r))
  || negb (JS.truthy_string (customerPhone r))
  || negb (JS.truthy_int (numGuests r)).

(** The object literal passed to [insert]: the three amounts and the promo
    code are those of the request body. *)
Definition booking_row (experienceId slotId customerName customerEmail
    customerPhone : string) (numGuests : Z) (r : BookingRequest)
    (bookingReference : string) : NewBooking :=
  {| nb_experience_id := experienceId;
     nb_slot_id := slotId;
     nb_customer_name := customerName;
     nb_customer_email := customerEmail;
     nb_customer_phone := customerPhone;
     nb_num_guests := numGuests;
     nb_base_amount := baseAmount r;
     nb_discount_amount := JS.or_num (discountAmount r) 0;
     nb_final_amount := finalAmount r;
     nb_promo_code := JS.or_null (promoCode r);
     nb_status := "confirmed";
     nb_booking_reference := bookingReference |}.

(** The [POST] branch of the bookings function. *)
Definition createBooking (random : nat -> Q) (r : BookingRequest) (db : Store)
  : Outcome :=
  match experienceId r, slotId r, customerName r, customerEmail r,
        customerPhone r, numGuests r with
  | Some experienceId, Some slotId, Some customerName, Some customerEmail,
    Some customerPhone, Some numGuests =>
    if missing_required r
    then mkOutcome (mkResponse 400 (ErrorBody "Missing required fields")) db []
    else
      match Db.select_slot db slotId with
      | None =>
        mkOutcome (mkResponse 404 (ErrorBody "Slot not found")) db
                  [SelectSlot slotId]
      | Some slot =>
        if booked slot + numGuests >? capacity slot
        then mkOutcome (mkResponse 400 (ErrorBody "Not enough capacity available"))
                       db [SelectSlot slotId]
        else
          let bookingReference := generateBookingReference random in
          let row := booking_row experienceId slotId customerName
                       customerEmail customerPhone numGuests r
                       bookingReference in
          match Db.insert_booking db row with
          | inl bookingError =>
            mkOutcome (mkResponse 500 (ErrorBody (message bookingError))) db
                      [SelectSlot slotId; InsertBooking row]
          | inr (booking, db1) =>
            let v := booked slot + numGuests in
            match Db.update_slot_booked db1 slotId v with
            | inl updateError =>
              mkOutcome (mkResponse 500 (ErrorBody (message updateError))) db1
                        [SelectSlot slotId; InsertBooking row;
                         UpdateSlot slotId v]
            | inr db2 =>
              mkOutcome (mkResponse 200 (DataBody booking)) db2
                        [SelectSlot slotId; InsertBooking row;
                         UpdateSlot slotId v]
            end
          end
      end
  | _, _, _, _, _, _ =>
    mkOutcome (mkResponse 400 (ErrorBody "Missing required fields")) db []
  end.

(** [Deno.serve] of the bookings function. *)
Definition bookings_handler (random : nat -> Q) (m : Method)
    (r : BookingRequest) (db : Store) : Outcome :=
  match m with
  | OPTIONS => mkOutcome (mkResponse 200 NoBody) db []
  | POST => createBooking random r db
  | OtherMethod _ =>
    mkOutcome (mkResponse 405 (ErrorBody "Method not allowed")) db []
  end.

(* ------------------------------------------------------------------ *)
(** ** The promo-validate function                                      *)
(* ------------------------------------------------------------------ *)

(** [new Date(promo.valid_from)]: a [null] column reads as the epoch. *)
Definition validFrom (p : PromoCode) : Z :=
  match valid_from p with
  | Some t => t
  | None => 0
  end.

Definition validUntil (p : PromoCode) : Z := valid_until p.

(** [now < validFrom || now > validUntil] *)
Definition out_of_window (now : Z) (p : PromoCode) : bool :=
  (now <? validFrom p) || (now >? validUntil p).

(** [promo.min_amount && amount < promo.min_amount] *)
Definition below_minimum (p : PromoCode) (amount : Q) : option Q :=
  match min_amount p with
  | Some m =>
    if JS.truthy_num (Some m) && JS.lt_num amount m then Some m else None
  | None => None
  end.

(** The discount before it is limited by the amount. *)
Definition raw_discount (p : PromoCode) (amount : Q) : Q :=
  match discount_type p with
  | percentage =>
    let discountAmount := (amount * discount_value p / 100)%Q in
    match max_discount p with
    | Some cap =>
      if JS.truthy_num (Some cap) && JS.gt_num discountAmount cap
      then cap else discountAmount
    | None => discountAmount
    end
  | fixed => discount_value p
  end.

(** The [POST] branch of the promo-validate function, run at instant
    [now]. *)
Definition validatePromo (now : Z) (r : PromoRequest) (db : Store) : Outcome :=
  match code r, amount r with
  | Some c, Some a =>
    if negb (JS.truthy_string (code r)) || negb (JS.truthy_num (amount r))
    then mkOutcome (mkResponse 400 (ErrorBody "Code and amount are required"))
                   db []
    else
      let key := JS.toUpperCase c in
      match Db.select_active_promo db key with
      | None =>
        mkOutcome (mkResponse 200 (InvalidBody InvalidPromoCode)) db
                  [SelectPromo key]
      | Some promo =>
        if out_of_window now promo
        then mkOutcome (mkResponse 200 (InvalidBody PromoExpired)) db
                       [SelectPromo key]
        else
          match below_minimum promo a with
          | Some m =>
            mkOutcome (mkResponse 200 (InvalidBody (MinimumPurchase m))) db
                      [SelectPromo key]
          | None =>
            let discountAmount := JS.Math_min (raw_discount promo a) a in
            mkOutcome
              (mkResponse 200 (ValidBody discountAmount (a - discountAmount)%Q))
              db [SelectPromo key]
          end
      end
  | _, _ =>
    mkOutcome (mkResponse 400 (ErrorBody "Code and amount are required")) db []
  end.

(** [Deno.serve] of the promo-validate function. *)
Definition promo_handler (now : Z) (m : Method) (r : PromoRequest)
    (db : Store) : Outcome :=
  match m with
  | OPTIONS => mkOutcome (mkResponse 200 NoBody) db []
  | POST => validatePromo now r db
  | OtherMethod _ =>
    mkOutcome (mkResponse 405 (ErrorBody "Method not allowed")) db []
  end.

(* ------------------------------------------------------------------ *)
(** ** Vocabulary of the properties                                     *)
(* ------------------------------------------------------------------ *)

(** [c] is one of the 36 symbols [A-Z0-9]. *)
Definition in_alphabet (c : ascii) : bool :=
  let n := nat_of_ascii c in
  (((65 <=? n) && (n <=? 90)) || ((48 <=? n) && (n <=? 57)))%nat.

(** [BK] followed by exactly eight symbols of the alphabet. *)
Definition reference_format (s : string) : bool :=
  match s with
  | String "B" (String "K" rest) =>
    (String.length rest =? 8)%nat
    && forallb in_alphabet (list_ascii_of_string rest)
  | _ => false
  end.

(** A required text field that is missing or empty. *)
Definition absent (x : option string) : Prop := x = None \/ x = Some "".

(** The response carries a booking. *)
Definition confirmed (o : Outcome) : bool :=
  match body (response o) with
  | DataBody _ => true
  | _ => false
  end.


(** The row a request leads to, when all six required fields are there. *)
Definition request_row (random : nat -> Q) (r : BookingRequest)
  : option NewBooking :=
  match experienceId r, slotId r, customerName r, customerEmail r,
        customerPhone r, numGuests r with
  | Some e, Some s, Some n, Some m, Some p, Some g =>
    Some (booking_row e s n m p g r (generateBookingReference random))
  | _, _, _, _, _, _ => None
  end.

(** [0 <= booked <= capacity] on every slot. *)
Definition slots_within_capacity (db : Store) : Prop :=
  forall id s, slots db !! id = Some s -> 0 <= booked s <= capacity s.

(** The stores seen before and after each of a sequence of booking
    operations, each with its own random draws. *)
Fixpoint trajectory (ops : list ((nat -> Q) * BookingRequest)) (db : Store)
  : list Store :=
  db :: match ops with
        | [] => []
        | (random, r) :: rest =>
          trajectory rest (store (createBooking random r db))
        end.

(** One accepted write to the store. The two writes below are the only
    ones the functions issue, so the states reachable by invocations that
    overlap in time are those reachable by [rtc store_write]. *)
Inductive store_write : Store -> Store -> Prop :=
| write_booking db row b db1 :
    Db.insert_booking db row = inr (b, db1) -> store_write db db1
| write_counter db id v db' :
    Db.update_slot_booked db id v = inr db' -> store_write db db'.

(** The same store with another [promo_codes] relation. *)
Definition with_promo_codes (promos : gmap string PromoCode) (db : Store)
  : Store :=
  {| experiences := experiences db; slots := slots db;
     bookings := bookings db; promo_codes := promos |}.

(** The six ways through [createBooking], one per [return] or [throw]. *)
Inductive BookingPath (random : nat -> Q) (r : BookingRequest) (db : Store)
  : Outcome -> Prop :=
| path_missing :
    missing_required r = true ->
    BookingPath random r db
      (mkOutcome (mkResponse 400 (ErrorBody "Missing required fields")) db [])
| path_no_slot id :
    missing_required r = false -> slotId r = Some id ->
    slots db !! id = None ->
    BookingPath random r db
      (mkOutcome (mkResponse 404 (ErrorBody "Slot not found")) db
                 [SelectSlot id])
| path_full id n s :
    missing_required r = false -> slotId r = Some id ->
    numGuests r = Some n -> slots db !! id = Some s ->
    booked s + n > capacity s ->
    BookingPath random r db
      (mkOutcome (mkResponse 400 (ErrorBody "Not enough capacity available"))
                 db [SelectSlot id])
| path_refused id n s row e :
    missing_required r = false -> slotId r = Some id ->
    numGuests r = Some n -> slots db !! id = Some s ->
    booked s + n <= capacity s ->
    request_row random r = Some row ->
    Db.insert_booking db row = inl e ->
    BookingPath random r db
      (mkOutcome (mkResponse 500 (ErrorBody (message e))) db
                 [SelectSlot id; InsertBooking row])
| path_stranded id n s row b db1 e :
    missing_required r = false -> slotId r = Some id ->
    numGuests r = Some n -> slots db !! id = Some s ->
    booked s + n <= capacity s ->
    request_row random r = Some row ->
    Db.insert_booking db row = inr (b, db1) ->
    Db.update_slot_booked db1 id (booked s + n) = inl e ->
    BookingPath random r db
      (mkOutcome (mkResponse 500 (ErrorBody (message e))) db1
                 [SelectSlot id; InsertBooking row;
                  UpdateSlot id (booked s + n)])
| path_confirmed id n s row b db1 db2 :
    missing_required r = false -> slotId r = Some id ->
    numGuests r = Some n -> slots db !! id = Some s ->
    booked s + n <= capacity s ->
    request_row random r = Some row ->
    Db.insert_booking db row = inr (b, db1) ->
    Db.update_slot_booked db1 id (booked s + n) = inr db2 ->
    BookingPath random r db
      (mkOutcome (mkResponse 200 (DataBody b)) db2
                 [SelectSlot id; InsertBooking row;
                  UpdateSlot id (booked s + n)]).

(* ------------------------------------------------------------------ *)
(** ** Sample data                                                      *)
(* ------------------------------------------------------------------ *)

Definition sample_slot : Slot :=
  {| slot_experience_id := "exp-1"; slot_date := "2026-12-01";
     slot_time := "09:00:00"; capacity := 10; booked := 9 |}.

(** One experience at 149 a guest, one slot with a single seat left, and
    the [FLAT100] code of the seed data. *)
Definition sample_store : Store :=
  {| experiences :=
       {[ "exp-1" := {| exp_title := "Sunset Sailing Adventure";
                        exp_price := 149 |} ]};
     slots := {[ "slot-1" := sample_slot ]};
     bookings := [];
     promo_codes :=
       {[ "FLAT100" := {| discount_type := fixed; discount_value := 100;
                          min_amount := Some 200%Q; max_discount := Some 100%Q;
                          valid_from := Some 1700000000000;
                          valid_until := 1798761599000;
                          is_active := true |} ]} |}.

Definition sample_request : BookingRequest :=
  {| experienceId := Some "exp-1"; slotId := Some "slot-1";
     customerName := Some "Ada Lovelace";
     customerEmail := Some "ada@example.org";
     customerPhone := Some "+44 20 7946 0000"; numGuests := Some 1;
     baseAmount := Some 149%Q; discountAmount := Some 0%Q;
     finalAmount := Some 149%Q; promoCode := None |}.

Definition with_guests (n : option Z) (r : BookingRequest) : BookingRequest :=
  {| experienceId := experienceId r; slotId := slotId r;
     customerName := customerName r; customerEmail := customerEmail r;
     customerPhone := customerPhone r; numGuests := n;
     baseAmount := baseAmount r; discountAmount := discountAmount r;
     finalAmount := finalAmount r; promoCode := promoCode r |}.


Definition with_payment (base discount final : option Q)
    (promo : option string) (r : BookingRequest) : BookingRequest :=
  {| experienceId := experienceId r; slotId := slotId r;
     customerName := customerName r; customerEmail := customerEmail r;
     customerPhone := customerPhone r; numGuests := numGuests r;
     baseAmount := base; discountAmount := discount;
     finalAmount := final; promoCode := promo |}.

(** Draws that are all [0] give [BKAAAAAAAA]; draws that are all [1/2]
    give [BKSSSSSSSS]. *)
Definition sample_random : nat -> Q := fun _ => 0%Q.
Definition other_random : nat -> Q := fun _ => (1 # 2)%Q.


(** A request that names a promo code the store does not hold and claims
    the whole amount as discount. *)
Definition bogus_promo_request : BookingRequest :=
  with_payment (Some 149%Q) (Some 149%Q) (Some 0%Q) (Some "BOGUS")
               sample_request.

(** The row [createBooking] stores for a request on [sample_store] with
    [sample_random]. *)
Definition stored_booking (base discount final : Q) (promo : option string)
  : Booking :=
  {| experience_id := "exp-1"; slot_id := "slot-1";
     customer_name := "Ada Lovelace"; customer_email := "ada@example.org";
     customer_phone := "+44 20 7946 0000"; num_guests := 1;
     base_amount := base; discount_amount := discount; final_amount := final;
     promo_code := promo; status := "confirmed";
     booking_reference := "BKAAAAAAAA" |}.

(** A fixed discount of 500 without minimum, valid on [0, 1000]. *)
Definition flat500 : PromoCode :=
  {| discount_type := fixed; discount_value := 500; min_amount := None;
     max_discount := None; valid_from := Some 0; valid_until := 1000;
     is_active := true |}.

(** The same with a minimum purchase of 200. *)
Definition flat500_min200 : PromoCode :=
  {| discount_type := fixed; discount_value := 500;
     min_amount := Some 200%Q; max_discount := None; valid_from := Some 0;
     valid_until := 1000; is_active := true |}.

(** Ten percent off, valid on [0, 1000]. *)
Definition save10 : PromoCode :=
  {| discount_type := percentage; discount_value := 10; min_amount := None;
     max_discount := None; valid_from := Some 0; valid_until := 1000;
     is_active := true |}.

Definition promo_store (c : string) (p : PromoCode) : Store :=
  {| experiences := ∅; slots := ∅; bookings := [];
     promo_codes := {[ c := p ]} |}.

(* ------------------------------------------------------------------ *)
(** ** Vocabulary of the further properties of the booking handler      *)
(* ------------------------------------------------------------------ *)

(** The guests of the bookings stored for slot [id]. *)
Definition guests_of (id : string) (bs : list Booking) : Z :=
  fold_right
    (fun b acc => if String.eqb (slot_id b) id then num_guests b + acc else acc)
    0 bs.

(** Every counter is the number of guests of the bookings of its slot. *)
Definition counters_match (db : Store) : Prop :=
  forall id s, slots db !! id = Some s ->
               booked s = guests_of id (bookings db).

(** No two stored bookings share a reference
    ([booking_reference text UNIQUE NOT NULL]). *)
Definition references_unique (db : Store) : Prop :=
  NoDup (map booking_reference (bookings db)).

(** The row [s] with another capacity, and the store with that capacity on
    every slot. *)
Definition slot_with_capacity (s : Slot) (c : Z) : Slot :=
  {| slot_experience_id := slot_experience_id s; slot_date := slot_date s;
     slot_time := slot_time s; capacity := c; booked := booked s |}.

Definition with_capacity (c : Z) (db : Store) : Store :=
  {| experiences := experiences db;
     slots := (fun s => slot_with_capacity s c) <$> slots db;
     bookings := bookings db; promo_codes := promo_codes db |}.

(** [sample_store] before any booking: ten seats, none taken. *)
Definition open_store : Store :=
  {| experiences := experiences sample_store;
     slots := {[ "slot-1" := Db.with_booked sample_slot 0 ]};
     bookings := []; promo_codes := promo_codes sample_store |}.

(** A percentage code capped at 5. *)
Definition save10_capped : PromoCode :=
  {| discount_type := percentage; discount_value := 10; min_amount := None;
     max_discount := Some 5%Q; valid_from := Some 0; valid_until := 1000;
     is_active := true |}.

(* ------------------------------------------------------------------ *)
(** ** The client: text primitives                                      *)
(* ------------------------------------------------------------------ *)

(** Text is ASCII. [RegExp.prototype.test] on a pattern anchored by [^]
    and [$], without flags, groups or look-around, is membership in the
    language of the pattern; it is decided here by derivatives. *)
Module Text.

(** White space of [\s] and of [trim]: tab, line feed, vertical tab, form
    feed, carriage return and space. *)
Definition is_space (c : ascii) : bool :=
  let n := nat_of_ascii c in
  ((n =? 32) || ((9 <=? n) && (n <=? 13)))%nat.

(** [\d] *)
Definition is_digit (c : ascii) : bool :=
  let n := nat_of_ascii c in
  ((48 <=? n) && (n <=? 57))%nat.

Fixpoint trimStart (s : string) : string :=
  match s with
  | EmptyString => EmptyString
  | String c r => if is_space c then trimStart r else s
  end.

Definition reverse (s : string) : string :=
  string_of_list_ascii (List.rev (list_ascii_of_string s)).

(** [s.trim()] *)
Definition trim (s : string) : string :=
  reverse (trimStart (reverse (trimStart s))).

Inductive Regex :=
| Never
| Eps
| Class (p : ascii -> bool)
| Seq (r1 r2 : Regex)
| Alt (r1 r2 : Regex)
| Star (r : Regex).

Fixpoint nullable (r : Regex) : bool :=
  match r with
  | Never => false
  | Eps => true
  | Class _ => false
  | Seq r1 r2 => nullable r1 && nullable r2
  | Alt r1 r2 => nullable r1 || nullable r2
  | Star _ => true
  end.

Fixpoint deriv (c : ascii) (r : Regex) : Regex :=
  match r with
  | Never => Never
  | Eps => Never
  | Class p => if p c then Eps else Never
  | Seq r1 r2 =>
    if nullable r1 then Alt (Seq (deriv c r1) r2) (deriv c r2)
    else Seq (deriv c r1) r2
  | Alt r1 r2 => Alt (deriv c r1) (deriv c r2)
  | Star r1 => Seq (deriv c r1) (Star r1)
  end.

(** [/^r$/.test(s)] *)
Fixpoint test (r : Regex) (s : string) : bool :=
  match s with
  | EmptyString => nullable r
  | String c s' => test (deriv c r) s'
  end.

Definition Chr (c : ascii) : Regex := Class (Ascii.eqb c).
Definition Plus (r : Regex) : Regex := Seq r (Star r).
Definition Opt (r : Regex) : Regex := Alt Eps r.

(** [r{n,}] *)
Fixpoint AtLeast (n : nat) (r : Regex) : Regex :=
  match n with
  | O => Star r
  | S n' => Seq r (AtLeast n' r)
  end.

End Text.

(* ------------------------------------------------------------------ *)
(** ** The client: [src/lib/api.ts]                                     *)
(* ------------------------------------------------------------------ *)

(** Interface [PromoValidation]: what [response.json()] gives for an
    answer of the promo function. *)
Record PromoValidation := mkPromoValidation {
  pv_valid : option bool;
  pv_error : option string;
  pv_discount : option Q;
  pv_finalAmount : option Q
}.

Module Api.

(** The parsed body of an answer of the promo function; [show] renders the
    number inside the minimum-purchase message. *)
Definition promo_json (show : Q -> string) (b : Body) : PromoValidation :=
  match b with
  | ErrorBody e => mkPromoValidation None (Some e) None None
  | InvalidBody e =>
    mkPromoValidation (Some false) (Some (promo_error_text show e)) None None
  | ValidBody d f => mkPromoValidation (Some true) None (Some d) (Some f)
  | NoBody => mkPromoValidation None None None None
  | DataBody _ => mkPromoValidation None None None None
  end.

(** [api.validatePromoCode(code, amount)], sent at instant [now] to a
    server whose store is [db]. *)
Definition validatePromoCode (show : Q -> string) (now : Z) (db : Store)
    (promo : string) (total : Q) : PromoValidation :=
  promo_json show
    (body (response (promo_handler now POST
                       (mkPromoRequest (Some promo) (Some total)) db))).

(** [api.createBooking(booking)]: the error text when the answer carries a
    non-empty [error] (the [throw]), else the [data] of the answer
    ([undefined] when there is none; a [POST] is always answered with
    [error] or [data]); and the store the server is left with. *)
Definition createBooking (random : nat -> Q) (db : Store)
    (booking : BookingRequest) : (string + option Booking) * Store :=
  let o := bookings_handler random POST booking db in
  (match body (response o) with
   | ErrorBody e => if JS.truthy_string (Some e) then inl e else inr None
   | DataBody b => inr (Some b)
   | _ => inr None
   end, store o).

End Api.

(* ------------------------------------------------------------------ *)
(** ** The client: [src/pages/ExperienceDetails.tsx]                    *)
(* ------------------------------------------------------------------ *)

(** Interface [ExperienceDetails], reduced to what the booking flow
    reads: the id, the price per guest and the slots, each a row with its
    id. *)
Record ExperienceData := mkExperienceData {
  ed_id : string;
  ed_price : Q;
  ed_slots : list (string * Slot)
}.

(** Interface [CheckoutData], the state handed to [/checkout]. *)
Record CheckoutData := mkCheckoutData {
  cd_experience : ExperienceData;
  cd_slot : string * Slot;
  cd_numGuests : Z;
  cd_baseAmount : Q
}.

Module Details.

Record State := mkState {
  experience : option ExperienceData;
  selectedSlot : option (string * Slot);
  numGuests : Z
}.

(** [useState] initial values once the experience is loaded. *)
Definition init (e : option ExperienceData) : State :=
  mkState e None 1.

(** The clicks the page reacts to. *)
Inductive Event :=
| ClickSlot (slot : string * Slot)
| ClickMinus
| ClickPlus.

(** [const available = slot.capacity - slot.booked] *)
Definition available (s : Slot) : Z := capacity s - booked s.

(** [selectedSlot ? selectedSlot.capacity - selectedSlot.booked : 0] *)
Definition availableSlots (st : State) : Z :=
  match selectedSlot st with
  | Some slot => available (snd slot)
  | None => 0
  end.

(** One click. A disabled button does nothing: a slot button is disabled
    when the slot is full ([available === 0]), minus when
    [numGuests <= 1], plus when a slot is selected and
    [numGuests >= availableSlots]. *)
Definition step (st : State) (e : Event) : State :=
  match e with
  | ClickSlot slot =>
    if available (snd slot) =? 0 then st
    else mkState (experience st) (Some slot) (numGuests st)
  | ClickMinus =>
    if numGuests st <=? 1 then st
    else mkState (experience st) (selectedSlot st)
                 (Z.max 1 (numGuests st - 1))
  | ClickPlus =>
    if match selectedSlot st with
       | Some _ => numGuests st >=? availableSlots st
       | None => false
       end
    then st
    else mkState (experience st) (selectedSlot st) (numGuests st + 1)
  end.

Definition run (st : State) (es : list Event) : State :=
  fold_left step es st.

(** [handleBooking]: the state passed to [navigate('/checkout', ...)], if
    any. *)
Definition handleBooking (st : State) : option CheckoutData :=
  match selectedSlot st, experience st with
  | Some slot, Some e =>
    Some (mkCheckoutData e slot (numGuests st)
                         (ed_price e * inject_Z (numGuests st))%Q)
  | _, _ => None
  end.

End Details.

(* ------------------------------------------------------------------ *)
(** ** The client: [src/pages/Checkout.tsx]                             *)
(* ------------------------------------------------------------------ *)

Module Checkout.

Record FormData := mkFormData {
  name : string;
  email : string;
  phone : string
}.

(** [Record<string, string>] with the keys [name], [email], [phone]. *)
Record Errors := mkErrors {
  err_name : option string;
  err_email : option string;
  err_phone : option string
}.

(** The [useState] cells of the page. [pending] is not one of them: it is
    the code of the [validatePromoCode] call that has been sent and not yet
    answered, which lives in the closure of [handleApplyPromo]. *)
Record State := mkState {
  formData : FormData;
  promoCode : string;
  discount : Q;
  promoError : string;
  promoApplied : bool;
  validatingPromo : bool;
  pending : option string;
  errors : Errors
}.

Definition init : State :=
  mkState (mkFormData "" "" "") "" 0 "" false false None
          (mkErrors None None None).

(** [/^[^\s@]+@[^\s@]+\.[^\s@]+$/] *)
Definition email_pattern : Text.Regex :=
  let word := Text.Plus (Text.Class
                (fun c => negb (Text.is_space c || Ascii.eqb c "@"))) in
  Text.Seq word (Text.Seq (Text.Chr "@")
    (Text.Seq word (Text.Seq (Text.Chr ".") word))).

(** [/^\+?[\d\s\-()]{10,}$/] *)
Definition phone_pattern : Text.Regex :=
  Text.Seq (Text.Opt (Text.Chr "+"))
    (Text.AtLeast 10 (Text.Class
       (fun c => Text.is_digit c || Text.is_space c || Ascii.eqb c "-"
                 || Ascii.eqb c "(" || Ascii.eqb c ")"))).

(** [validateForm]: the new [errors]; the form is valid when there is
    none. *)
Definition form_errors (f : FormData) : Errors :=
  mkErrors
    (if negb (JS.truthy_string (Some (Text.trim (name f))))
     then Some "Full name is required" else None)
    (if negb (JS.truthy_string (Some (Text.trim (email f))))
     then Some "Email is required"
     else if negb (Text.test email_pattern (email f))
     then Some "Please enter a valid email" else None)
    (if negb (JS.truthy_string (Some (Text.trim (phone f))))
     then Some "Phone number is required"
     else if negb (Text.test phone_pattern (phone f))
     then Some "Please enter a valid phone number" else None).

Definition no_errors (e : Errors) : bool :=
  match err_name e, err_email e, err_phone e with
  | None, None, None => true
  | _, _, _ => false
  end.

Definition validateForm (st : State) : bool :=
  no_errors (form_errors (formData st)).

(** What the user and the network do to the page. Typing in the promo
    field and the two sample buttons are dead while a code is applied;
    [Apply] exists only while no code is applied and is disabled during a
    validation or on a blank code; [Remove] exists only while a code is
    applied. [ApplyResolved now db] is the arrival of the answer of the
    pending validation, computed by the server at [now] on [db];
    [ApplyFailed] is the failure of that call. *)
Inductive Event :=
| TypeName (v : string)
| TypeEmail (v : string)
| TypePhone (v : string)
| TypePromo (v : string)
| PickSAVE10
| PickFLAT100
| ClickApply
| ApplyResolved (now : Z) (db : Store)
| ApplyFailed
| ClickRemove.

Definition setPromoCode (st : State) (v : string) : State :=
  mkState (formData st) v (discount st) (promoError st) (promoApplied st)
          (validatingPromo st) (pending st) (errors st).

Definition setFormData (st : State) (f : FormData) : State :=
  mkState f (promoCode st) (discount st) (promoError st) (promoApplied st)
          (validatingPromo st) (pending st) (errors st).

(** The part of [handleApplyPromo] after the [await]. *)
Definition applyResult (st : State) (result : PromoValidation) : State :=
  match pv_valid result, pv_discount result with
  | Some true, Some d =>
    if JS.truthy_num (Some d)
    then mkState (formData st) (promoCode st) d "" true false None (errors st)
    else mkState (formData st) (promoCode st) 0
                 (match pv_error result with
                  | Some e => if JS.truthy_string (Some e) then e
                              else "Invalid promo code"
                  | None => "Invalid promo code"
                  end) false false None (errors st)
  | _, _ =>
    mkState (formData st) (promoCode st) 0
            (match pv_error result with
             | Some e => if JS.truthy_string (Some e) then e
                         else "Invalid promo code"
             | None => "Invalid promo code"
             end) false false None (errors st)
  end.

Definition step (show : Q -> string) (data : CheckoutData) (st : State)
    (e : Event) : State :=
  match e with
  | TypeName v =>
    setFormData st (mkFormData v (email (formData st)) (phone (formData st)))
  | TypeEmail v =>
    setFormData st (mkFormData (name (formData st)) v (phone (formData st)))
  | TypePhone v =>
    setFormData st (mkFormData (name (formData st)) (email (formData st)) v)
  | TypePromo v =>
    if promoApplied st then st else setPromoCode st (JS.toUpperCase v)
  | PickSAVE10 => if promoApplied st then st else setPromoCode st "SAVE10"
  | PickFLAT100 => if promoApplied st then st else setPromoCode st "FLAT100"
  | ClickApply =>
    if promoApplied st || validatingPromo st
       || negb (JS.truthy_string (Some (Text.trim (promoCode st))))
    then st
    else mkState (formData st) (promoCode st) (discount st) ""
                 (promoApplied st) true
                 (Some (JS.toUpperCase (promoCode st))) (errors st)
  | ApplyResolved now db =>
    match pending st with
    | Some sent =>
      applyResult st
        (Api.validatePromoCode show now db sent (cd_baseAmount data))
    | None => st
    end
  | ApplyFailed =>
    match pending st with
    | Some _ =>
      mkState (formData st) (promoCode st) 0 "Error validating promo code"
              false false None (errors st)
    | None => st
    end
  | ClickRemove =>
    if promoApplied st
    then mkState (formData st) "" 0 "" false (validatingPromo st)
                 (pending st) (errors st)
    else st
  end.

Definition run (show : Q -> string) (data : CheckoutData) (st : State)
    (es : list Event) : State :=
  fold_left (step show data) es st.

(** [const finalAmount = baseAmount - discount] *)
Definition finalAmount (data : CheckoutData) (st : State) : Q :=
  (cd_baseAmount data - discount st)%Q.

(** The argument of [api.createBooking] in [handleSubmit]. *)
Definition booking_request (data : CheckoutData) (st : State)
  : BookingRequest :=
  mkBookingRequest
    (Some (ed_id (cd_experience data)))
    (Some (fst (cd_slot data)))
    (Some (name (formData st)))
    (Some (email (formData st)))
    (Some (phone (formData st)))
    (Some (cd_numGuests data))
    (Some (cd_baseAmount data))
    (Some (discount st))
    (Some (finalAmount data st))
    (if promoApplied st then Some (JS.toUpperCase (promoCode st)) else None).

(** Where [handleSubmit] leaves the user. *)
Inductive Submitted :=
| FormRejected (e : Errors)
| ResultSuccess (booking : option Booking)
| ResultFailure (error : string).

Definition handleSubmit (random : nat -> Q) (db : Store)
    (data : CheckoutData) (st : State) : Submitted * Store :=
  if negb (validateForm st) then (FormRejected (form_errors (formData st)), db)
  else
    match Api.createBooking random db (booking_request data st) with
    | (inl e, db') => (ResultFailure e, db')
    | (inr b, db') => (ResultSuccess b, db')
    end.

End Checkout.

(* ------------------------------------------------------------------ *)
(** ** Sample data of the client                                        *)
(* ------------------------------------------------------------------ *)

Definition sample_experience : ExperienceData :=
  mkExperienceData "exp-1" 149 [("slot-1", sample_slot)].

Definition sample_checkout_data : CheckoutData :=
  mkCheckoutData sample_experience ("slot-1", sample_slot) 1 (149 * inject_Z 1).

(** What every state of the details page satisfies. *)
Definition details_invariant (e : option ExperienceData) (st : Details.State)
  : Prop :=
  Details.experience st = e
  /\ 1 <= Details.numGuests st
  /\ forall slot, Details.selectedSlot st = Some slot ->
                  Details.available (snd slot) <> 0.




(** A form that passes [validateForm]. *)
Definition sample_form : Checkout.FormData :=
  Checkout.mkFormData "Ada Lovelace" "ada@example.org" "+44 20 7946 0000".

Definition fill_sample_form : list Checkout.Event :=
  [Checkout.TypeName "Ada Lovelace"; Checkout.TypeEmail "ada@example.org";
   Checkout.TypePhone "+44 20 7946 0000"].

(** A store with [sample_store]'s experience and slot (ten seats, none
    taken) and the [SAVE10] code. *)
Definition save10_store : Store :=
  with_promo_codes {[ "SAVE10" := save10 ]} open_store.

Definition ten_guests_data : CheckoutData :=
  mkCheckoutData sample_experience ("slot-1", Db.with_booked sample_slot 0) 10
                 (149 * inject_Z 10).

(** [sample_store] with the [SAVE10] code. *)
Definition save10_sample_store : Store :=
  with_promo_codes {[ "SAVE10" := save10 ]} sample_store.


(** The discount [SAVE10] grants on 149. *)
Definition save10_discount : Q :=
  JS.Math_min (raw_discount save10 (149 * inject_Z 1)) (149 * inject_Z 1).


(** The same customer, who replaces the code by [FLAT100] while the
    validation of [SAVE10] is under way. *)
Definition overtaken_events : list Checkout.Event :=
  (fill_sample_form
   ++ [Checkout.PickSAVE10; Checkout.ClickApply; Checkout.TypePromo "flat100";
       Checkout.ApplyResolved 500 save10_sample_store])%list.

(* ------------------------------------------------------------------ *)
(** ** [supabase/functions/experiences/index.ts]                        *)
(* ------------------------------------------------------------------ *)

Module Url.

Fixpoint drop (n : nat) (s : string) : string :=
  match n, s with
  | O, _ => s
  | S n', String _ r => drop n' r
  | S _, EmptyString => EmptyString
  end.

(** [s.replace(pat, rep)] for a string pattern: the first occurrence
    only. *)
Fixpoint replace (pat rep s : string) : string :=
  if String.prefix pat s then rep +:+ drop (String.length pat) s
  else match s with
       | EmptyString => EmptyString
       | String c r => String c (replace pat rep r)
       end.

(** [s.split(sep)] for a separator of one character. *)
Fixpoint split (sep : ascii) (s : string) : list string :=
  match s with
  | EmptyString => [EmptyString]
  | String c r =>
    if Ascii.eqb c sep then EmptyString :: split sep r
    else match split sep r with
         | h :: t => String c h :: t
         | [] => [String c EmptyString]
         end
  end.

(** [xs.filter(Boolean)] on strings: the non-empty ones. *)
Definition filter_Boolean (xs : list string) : list string :=
  List.filter (fun x => JS.truthy_string (Some x)) xs.

(** [pathname.replace("/functions/v1", "").split("/").filter(Boolean)] *)
Definition parts (pathname : string) : list string :=
  filter_Boolean (split "/" (replace "/functions/v1" "" pathname)).

End Url.

(** The three queries of the function, as the store answers them:
    all experiences by [created_at] descending; the experience of an id
    ([single()], so no row is an error); the slots of an experience from
    a date on, by date then time. *)
Record Catalog (Row SlotRow Err : Type) := mkCatalog {
  all_experiences : Err + list Row;
  experience_by_id : string -> Err + Row;
  slots_from : string -> string -> Err + list SlotRow;
  error_message : Err -> string
}.

Arguments mkCatalog {Row SlotRow Err}.
Arguments all_experiences {Row SlotRow Err}.
Arguments experience_by_id {Row SlotRow Err}.
Arguments slots_from {Row SlotRow Err}.
Arguments error_message {Row SlotRow Err}.

(** The queries a run issued. *)
Inductive CatalogQuery :=
| QueryExperiences
| QueryExperience (id : string)
| QuerySlots (experience_id : string) (from_date : string).

(** The answers: [null], [{ data }] with the list, [{ data }] with the
    experience and its slots, [{ error }]. *)
Inductive CatalogBody (Row SlotRow : Type) :=
| CatalogNoBody
| CatalogList (data : list Row)
| CatalogDetails (experience : Row) (slots : list SlotRow)
| CatalogError (error : string).

Arguments CatalogNoBody {Row SlotRow}.
Arguments CatalogList {Row SlotRow}.
Arguments CatalogDetails {Row SlotRow}.
Arguments CatalogError {Row SlotRow}.

Record CatalogOutcome (Row SlotRow : Type) := mkCatalogOutcome {
  catalog_status : Z;
  catalog_body : CatalogBody Row SlotRow;
  catalog_queries : list CatalogQuery
}.

Arguments mkCatalogOutcome {Row SlotRow}.
Arguments catalog_status {Row SlotRow}.
Arguments catalog_body {Row SlotRow}.
Arguments catalog_queries {Row SlotRow}.

(** [req.method === "GET"] *)
Definition is_GET (m : Method) : bool :=
  match m with
  | OtherMethod n => String.eqb n "GET"
  | _ => false
  end.

(** The branch [/experiences/:id]. *)
Definition experience_details {Row SlotRow Err : Type}
    (q : Catalog Row SlotRow Err) (today : string) (experienceId : string)
  : CatalogOutcome Row SlotRow :=
  match experience_by_id q experienceId with
  | inl expError =>
    mkCatalogOutcome 500 (CatalogError (error_message q expError))
                     [QueryExperience experienceId]
  | inr experience =>
    match slots_from q experienceId today with
    | inl slotsError =>
      mkCatalogOutcome 500 (CatalogError (error_message q slotsError))
                       [QueryExperience experienceId;
                        QuerySlots experienceId today]
    | inr slots =>
      mkCatalogOutcome 200 (CatalogDetails experience slots)
                       [QueryExperience experienceId;
                        QuerySlots experienceId today]
    end
  end.

(** The branch [/experiences]. *)
Definition experience_list {Row SlotRow Err : Type}
    (q : Catalog Row SlotRow Err) : CatalogOutcome Row SlotRow :=
  match all_experiences q with
  | inl error =>
    mkCatalogOutcome 500 (CatalogError (error_message q error))
                     [QueryExperiences]
  | inr data => mkCatalogOutcome 200 (CatalogList data) [QueryExperiences]
  end.

(** [Deno.serve] of the experiences function; [today] is
    [new Date().toISOString().split("T")[0]] and [pathname] is
    [new URL(req.url).pathname]. *)
Definition experiences_handler {Row SlotRow Err : Type}
    (q : Catalog Row SlotRow Err) (today : string) (m : Method)
    (pathname : string) : CatalogOutcome Row SlotRow :=
  match m with
  | OPTIONS => mkCatalogOutcome 200 CatalogNoBody []
  | _ =>
    match Url.parts pathname with
    | [p0] =>
      if is_GET m && String.eqb p0 "experiences" then experience_list q
      else mkCatalogOutcome 404 (CatalogError "Not found") []
    | [p0; p1] =>
      if is_GET m && String.eqb p0 "experiences"
      then experience_details q today p1
      else mkCatalogOutcome 404 (CatalogError "Not found") []
    | _ => mkCatalogOutcome 404 (CatalogError "Not found") []
    end
  end.

(** A path segment: not empty and without a slash. *)
Definition is_segment (x : string) : Prop :=
  x <> "" /\ forall c, In c (list_ascii_of_string x) -> c <> "/"%char.

(** The segments behind one slash each. *)
Definition slashed (xs : list string) : string :=
  fold_right (fun x acc => String "/" (x +:+ acc)) "" xs.

(** A catalog with one experience and no slot. *)
Definition sample_catalog : Catalog Experience (string * Slot) string :=
  mkCatalog
    (inr [mkExperience "Sunset Sailing Adventure" 149])
    (fun id => if String.eqb id "exp-1"
               then inr (mkExperience "Sunset Sailing Adventure" 149)
               else inl "JSON object requested, multiple (or no) rows returned")
    (fun _ _ => inr [])
    (fun e => e).

(* ------------------------------------------------------------------ *)
(** ** The language of a pattern                                        *)
(* ------------------------------------------------------------------ *)

(** The strings a pattern matches from end to end. *)
Inductive Lang : Text.Regex -> string -> Prop :=
| Lang_eps : Lang Text.Eps ""
| Lang_class p c : p c = true -> Lang (Text.Class p) (String c "")
| Lang_seq r1 r2 s1 s2 :
    Lang r1 s1 -> Lang r2 s2 -> Lang (Text.Seq r1 r2) (s1 +:+ s2)
| Lang_alt_l r1 r2 s : Lang r1 s -> Lang (Text.Alt r1 r2) s
| Lang_alt_r r1 r2 s : Lang r2 s -> Lang (Text.Alt r1 r2) s
| Lang_star_nil r : Lang (Text.Star r) ""
| Lang_star_cons r s1 s2 :
    Lang r s1 -> Lang (Text.Star r) s2 -> Lang (Text.Star r) (s1 +:+ s2).

(** Every character of [s] satisfies [p]. *)
Definition all_chars (p : ascii -> bool) (s : string) : bool :=
  forallb p (list_ascii_of_string s).

(** [[^\s@]] *)
Definition email_char (c : ascii) : bool :=
  negb (Text.is_space c || Ascii.eqb c "@").

(** [[\d\s\-()]] *)
Definition phone_char (c : ascii) : bool :=
  Text.is_digit c || Text.is_space c || Ascii.eqb c "-"
  || Ascii.eqb c "(" || Ascii.eqb c ")".

(** [local@domain.tld] with three non-empty parts free of white space and
    of [@]. *)
Definition email_shape (s : string) : Prop :=
  exists l d t,
    s = l +:+ String "@" (d +:+ String "." t)
    /\ l <> "" /\ d <> "" /\ t <> ""
    /\ all_chars email_char l = true /\ all_chars email_char d = true
    /\ all_chars email_char t = true.

(** An optional [+], then ten characters or more, each a digit, white
    space, a hyphen or a parenthesis. *)
Definition phone_shape (s : string) : Prop :=
  exists digits,
    (s = digits \/ s = String "+" digits)
    /\ (10 <= String.length digits)%nat
    /\ all_chars phone_char digits = true.

(** Nothing but white space. *)
Definition blank (s : string) : Prop := all_chars Text.is_space s = true.

(* ------------------------------------------------------------------ *)
(** ** [groupSlotsByDate] of the details page                           *)
(* ------------------------------------------------------------------ *)

(** [Record<string, Slot[]>] in the order of [Object.entries]: the order in
    which the dates were first met (a date is neither an array index nor
    the name of a property of [Object.prototype]). *)
Definition Grouped : Type := list (string * list (string * Slot)).

(** [grouped[date]] *)
Fixpoint group_of (date : string) (grouped : Grouped)
  : option (list (string * Slot)) :=
  match grouped with
  | [] => None
  | (d, g) :: rest => if String.eqb d date then Some g else group_of date rest
  end.

(** The body of the [forEach]: open the group of the date when there is
    none, then push the slot. *)
Fixpoint push_slot (slot : string * Slot) (grouped : Grouped) : Grouped :=
  match grouped with
  | [] => [(slot_date (snd slot), [slot])]
  | (d, g) :: rest =>
    if String.eqb d (slot_date (snd slot)) then (d, (g ++ [slot])%list) :: rest
    else (d, g) :: push_slot slot rest
  end.

Definition groupSlotsByDate (slots : list (string * Slot)) : Grouped :=
  fold_left (fun grouped slot => push_slot slot grouped) slots [].

(** [Object.entries(groupedSlots).slice(0, 7)]: the groups on display. *)
Definition displayed_groups (slots : list (string * Slot)) : Grouped :=
  firstn 7 (groupSlotsByDate slots).

(** The slots of one date, in the order received. *)
Definition slots_on (date : string) (slots : list (string * Slot))
  : list (string * Slot) :=
  List.filter (fun slot => String.eqb (slot_date (snd slot)) date) slots.

(* ------------------------------------------------------------------ *)
(** ** The booking reference                                            *)
(* ------------------------------------------------------------------ *)

Lemma append_cons (a : ascii) (s t : string) :
  String a s +:+ t = String a (s +:+ t).
Proof. reflexivity. Qed.

Lemma append_empty_r (s : string) : s +:+ "" = s.
Proof.
  induction s as [| a s IH]; [reflexivity |].
  now rewrite append_cons, IH.
Qed.

Lemma append_one (s t : string) (c : ascii) :
  (s +:+ String c EmptyString) +:+ t = s +:+ String c t.
Proof.
  induction s as [| a s IH]; [reflexivity |].
  now rewrite !append_cons, IH.
Qed.

(** A draw in [0, 1) scaled by 36 and floored is an index into [chars]. *)
Lemma floor_index (q : Q) :
  (0 <= q)%Q -> (q < 1)%Q -> 0 <= JS.Math_floor (q * inject_Z 36) < 36.
Proof.
  intros H0 H1. unfold JS.Math_floor. split.
  - change 0 with (Qfloor (inject_Z 0)). apply Qfloor_resp_le.
    change (inject_Z 0) with (0 * inject_Z 36)%Q.
    apply Qmult_le_compat_r; [exact H0 | discriminate].
  - assert (Hlt : (q * inject_Z 36 < inject_Z 36)%Q).
    { apply Qlt_le_trans with (1 * inject_Z 36)%Q.
      - apply Qmult_lt_compat_r; [reflexivity | exact H1].
      - discriminate. }
    pose proof (Qfloor_le (q * inject_Z 36)) as Hle.
    rewrite Zlt_Qlt. eapply Qle_lt_trans; eassumption.
Qed.

Lemma charAt_chars (z : Z) :
  0 <= z < 36 ->
  exists c, JS.charAt chars z = String c EmptyString /\ in_alphabet c = true.
Proof.
  intros Hz. unfold JS.charAt.
  destruct (Z.ltb_spec z 0) as [Hneg | _]; [lia |].
  assert (Hn : (Z.to_nat z < 36)%nat) by lia.
  revert Hn. generalize (Z.to_nat z) as n. intros n Hn.
  do 36 (destruct n as [| n]; [eexists; split; reflexivity |]).
  lia.
Qed.

(** [n] rounds of the loop append [n] symbols of the alphabet. *)
Lemma reference_loop_appends (random : nat -> Q) :
  (forall i, (0 <= random i)%Q /\ (random i < 1)%Q) ->
  forall n i result, exists suffix,
    reference_loop random n i result = result +:+ suffix
    /\ String.length suffix = n
    /\ forallb in_alphabet (list_ascii_of_string suffix) = true.
Proof.
  intros Hr n. induction n as [| n IH]; intros i result.
  - exists EmptyString. cbn [reference_loop]. now rewrite append_empty_r.
  - cbn [reference_loop]. change (Z.of_nat (String.length chars)) with 36.
    destruct (charAt_chars (JS.Math_floor (random i * inject_Z 36)))
      as (c & Hc & Ha).
    { destruct (Hr i). now apply floor_index. }
    rewrite Hc.
    destruct (IH (S i) (result +:+ String c EmptyString))
      as (t & Ht & Hlen & Hall).
    exists (String c t). rewrite Ht, append_one. cbn -[in_alphabet].
    rewrite Ha, Hall, Hlen. auto.
Qed.

(** C9. Whatever [Math.random] draws from [0, 1), the generated booking
    reference is [BK] followed by exactly eight characters, each one of the
    36 symbols [A-Z0-9]. *)
Theorem booking_reference_format (random : nat -> Q) :
  (forall i, (0 <= random i)%Q /\ (random i < 1)%Q) ->
  reference_format (generateBookingReference random) = true.
Proof.
  intros Hr. unfold generateBookingReference.
  destruct (reference_loop_appends random Hr 8 0%nat "BK")
    as (t & Ht & Hlen & Hall).
  rewrite Ht. change ("BK" +:+ t) with (String "B" (String "K" t)).
  cbn -[in_alphabet]. rewrite Hlen, Hall. reflexivity.
Qed.

Lemma booking_reference_format_witness :
  reference_format (generateBookingReference other_random) = true.
Proof.
  apply booking_reference_format. intros i. unfold other_random.
  split; [discriminate | reflexivity].
Defined.

Example reference_of_varied_draws :
  generateBookingReference (fun i => inject_Z (Z.of_nat i) / 9)%Q
  = "BKAEIMQUY2".
Proof. vm_compute. reflexivity. Qed.

Example reference_of_sample_draws :
  generateBookingReference sample_random = "BKAAAAAAAA"
  /\ generateBookingReference other_random = "BKSSSSSSSS".
Proof. vm_compute. split; reflexivity. Qed.

(* ------------------------------------------------------------------ *)
(** ** Promo validation                                                 *)
(* ------------------------------------------------------------------ *)

Lemma truthy_string_false (x : option string) :
  JS.truthy_string x = false <-> absent x.
Proof.
  unfold absent. destruct x as [s |]; cbn.
  - rewrite negb_false_iff, String.eqb_eq. split.
    + intros ->. now right.
    + intros [H | H]; congruence.
  - split; auto.
Qed.

Lemma truthy_num_false (x : option Q) :
  JS.truthy_num x = false <-> x = None \/ exists q, x = Some q /\ (q == 0)%Q.
Proof.
  destruct x as [q |]; cbn.
  - rewrite negb_false_iff, Qeq_bool_iff. split.
    + intros H. right. eauto.
    + intros [H | (q' & H & H')]; congruence.
  - split; auto.
Qed.

(** C10. When the amount is 0 or absent, or the code is empty or absent,
    the promo endpoint answers 400 [Code and amount are required] without
    any lookup of the code, whatever the store holds: no verdict is given. *)
Theorem promo_requires_code_and_amount (now : Z) (r : PromoRequest)
    (db : Store) :
  (code r = None \/ code r = Some "" \/
   amount r = None \/ exists q, amount r = Some q /\ (q == 0)%Q) ->
  validatePromo now r db =
  mkOutcome (mkResponse 400 (ErrorBody "Code and amount are required")) db [].
Proof.
  intros H. unfold validatePromo.
  assert (Hf : JS.truthy_string (code r) = false
               \/ JS.truthy_num (amount r) = false).
  { rewrite truthy_string_false, truthy_num_false. unfold absent. tauto. }
  destruct (code r) as [c |], (amount r) as [a |]; try reflexivity.
  destruct Hf as [-> | ->]; cbn; [reflexivity |].
  now rewrite orb_true_r.
Qed.

Lemma promo_requires_code_and_amount_witness :
  validatePromo 500 {| code := Some "FLAT500"; amount := Some 0%Q |}
                (promo_store "FLAT500" flat500) =
  mkOutcome (mkResponse 400 (ErrorBody "Code and amount are required"))
            (promo_store "FLAT500" flat500) [].
Proof.
  apply promo_requires_code_and_amount.
  do 3 right. exists 0%Q. split; reflexivity.
Defined.

(** [Math.min] is the minimum of the rationals. *)
Lemma Math_min_Qmin (x y : Q) : (JS.Math_min x y == Qmin x y)%Q.
Proof.
  unfold JS.Math_min. destruct (Qle_bool x y) eqn:E.
  - apply Qle_bool_iff in E. symmetry. now apply Q.min_l.
  - assert (y <= x)%Q.
    { destruct (Qlt_le_dec y x) as [H | H]; [now apply Qlt_le_weak |].
      apply Qle_bool_iff in H. congruence. }
    symmetry. now apply Q.min_r.
Qed.

(** With a non-empty code and a non-zero amount the handler reaches the
    record and goes through the three checks in order. *)
Lemma validatePromo_reaches (now : Z) (r : PromoRequest) (db : Store) c a p :
  code r = Some c -> c <> "" -> amount r = Some a -> ~ (a == 0)%Q ->
  Db.select_active_promo db (JS.toUpperCase c) = Some p ->
  validatePromo now r db =
  if out_of_window now p
  then mkOutcome (mkResponse 200 (InvalidBody PromoExpired)) db
                 [SelectPromo (JS.toUpperCase c)]
  else match below_minimum p a with
       | Some m =>
         mkOutcome (mkResponse 200 (InvalidBody (MinimumPurchase m))) db
                   [SelectPromo (JS.toUpperCase c)]
       | None =>
         mkOutcome (mkResponse 200
           (ValidBody (JS.Math_min (raw_discount p a) a)
                      (a - JS.Math_min (raw_discount p a) a)%Q)) db
           [SelectPromo (JS.toUpperCase c)]
       end.
Proof.
  intros Hc Hne Ha Hnz Hp. unfold validatePromo. rewrite Hc, Ha, Hp. cbn.
  assert (E1 : String.eqb c "" = false) by now apply String.eqb_neq.
  assert (E2 : Qeq_bool a 0 = false).
  { destruct (Qeq_bool a 0) eqn:E; [| reflexivity].
    apply Qeq_bool_iff in E. contradiction. }
  rewrite E1, E2. reflexivity.
Qed.

(** C5. For an active code that is inside its validity window and whose
    minimum is met, a verdict is given (for a non-empty code and a non-zero
    amount), and every verdict given has [discount = min(discount before
    the limit, amount)] and [finalAmount = amount - discount >= 0]; a fixed
    discount that is at least the amount is cut down to the amount, which
    leaves a final amount of 0. *)
Theorem promo_discount_clamped (now : Z) (r : PromoRequest) (db : Store)
    c a p :
  code r = Some c -> amount r = Some a ->
  Db.select_active_promo db (JS.toUpperCase c) = Some p ->
  out_of_window now p = false ->
  below_minimum p a = None ->
  (c <> "" -> ~ (a == 0)%Q ->
   exists d f,
     response (validatePromo now r db) = mkResponse 200 (ValidBody d f))
  /\ (forall d f,
      body (response (validatePromo now r db)) = ValidBody d f ->
      (d == Qmin (raw_discount p a) a)%Q /\ (f == a - d)%Q /\ (0 <= f)%Q
      /\ (discount_type p = fixed -> (a <= discount_value p)%Q ->
          (d == a)%Q /\ (f == 0)%Q)).
Proof.
  intros Hc Ha Hp Hw Hm. split.
  - intros Hne Hnz.
    rewrite (validatePromo_reaches now r db c a p) by assumption.
    rewrite Hw, Hm. cbn. eauto.
  - intros d f Hb.
    assert (Hd : d = JS.Math_min (raw_discount p a) a
                 /\ f = (a - JS.Math_min (raw_discount p a) a)%Q).
    { revert Hb. unfold validatePromo. rewrite Hc, Ha.
      destruct (_ || _); [discriminate |].
      rewrite Hp, Hw, Hm. cbn. intros [= <- <-]. auto. }
    destruct Hd as [-> ->].
    pose proof (Math_min_Qmin (raw_discount p a) a) as Hmin.
    split; [exact Hmin |]. split; [reflexivity |]. split.
    + rewrite Hmin. pose proof (Q.le_min_r (raw_discount p a) a) as Hle.
      unfold Qminus. rewrite <- Qle_minus_iff. exact Hle.
    + intros Hfix Hle. unfold raw_discount in *. rewrite Hfix in *.
      assert (E : (JS.Math_min (discount_value p) a == a)%Q).
      { rewrite Math_min_Qmin. now apply Q.min_r. }
      split; [exact E |]. rewrite E. ring.
Qed.

Lemma promo_discount_clamped_witness :
  (100 == Qmin (raw_discount flat500 100) 100)%Q
  /\ (100 - 100 == 100 - 100)%Q /\ (0 <= 100 - 100)%Q
  /\ (discount_type flat500 = fixed -> (100 <= discount_value flat500)%Q ->
      (100 == 100)%Q /\ (100 - 100 == 0)%Q).
Proof.
  destruct (promo_discount_clamped 500
              {| code := Some "flat500"; amount := Some 100%Q |}
              (promo_store "FLAT500" flat500) "flat500" 100%Q flat500)
    as [_ H]; [reflexivity | reflexivity | reflexivity | reflexivity
               | reflexivity |].
  apply (H 100%Q (100 - 100)%Q). reflexivity.
Defined.

(** The examples of the pricing rules: 500 off 100 gives 100 off and 0 to
    pay; ten percent of 100 is 10; a code with a minimum of 200 is refused
    at 150 with the threshold in the answer. *)
Example fixed_discount_is_clamped :
  response (validatePromo 500 {| code := Some "flat500"; amount := Some 100%Q |}
              (promo_store "FLAT500" flat500))
  = mkResponse 200 (ValidBody 100 (100 - 100)).
Proof. vm_compute. reflexivity. Qed.

Example ten_percent_of_hundred :
  exists d f,
    response (validatePromo 500 {| code := Some "save10"; amount := Some 100%Q |}
                (promo_store "SAVE10" save10))
    = mkResponse 200 (ValidBody d f)
    /\ (d == 10)%Q /\ (f == 90)%Q.
Proof. do 2 eexists. split; [vm_compute; reflexivity |]. split; reflexivity. Qed.

Example below_the_minimum :
  response (validatePromo 500 {| code := Some "FLAT500"; amount := Some 150%Q |}
              (promo_store "FLAT500" flat500_min200))
  = mkResponse 200 (InvalidBody (MinimumPurchase 200)).
Proof. vm_compute. reflexivity. Qed.

(** C8, as the code has it. For a non-empty code and a non-zero amount:
    when the code resolves to an active record and the instant of the call
    is before [valid_from] or after [valid_until], the answer is
    [valid: false] with [Promo code has expired], whatever the amount and
    whatever minimum the record sets. (An empty code or a zero or absent
    amount is answered with the 400 of C10 before the record is read.) *)
Theorem expired_promo_rejected (now : Z) (r : PromoRequest) (db : Store)
    c a p :
  code r = Some c -> c <> "" -> amount r = Some a -> ~ (a == 0)%Q ->
  Db.select_active_promo db (JS.toUpperCase c) = Some p ->
  now < validFrom p \/ now > validUntil p ->
  validatePromo now r db =
  mkOutcome (mkResponse 200 (InvalidBody PromoExpired)) db
            [SelectPromo (JS.toUpperCase c)].
Proof.
  intros Hc Hne Ha Hnz Hp Hw.
  rewrite (validatePromo_reaches now r db c a p) by assumption.
  assert (E : out_of_window now p = true).
  { unfold out_of_window. apply orb_true_iff.
    destruct Hw; [left; now apply Z.ltb_lt | right; now apply Z.gtb_gt]. }
  now rewrite E.
Qed.

Lemma expired_promo_rejected_witness :
  validatePromo 2000 {| code := Some "flat500"; amount := Some 150%Q |}
                (promo_store "FLAT500" flat500_min200) =
  mkOutcome (mkResponse 200 (InvalidBody PromoExpired))
            (promo_store "FLAT500" flat500_min200)
            [SelectPromo (JS.toUpperCase "flat500")].
Proof.
  apply (expired_promo_rejected 2000 _ _ "flat500" 150%Q flat500_min200);
    [reflexivity | discriminate | reflexivity | discriminate | reflexivity
     | right; reflexivity].
Defined.

(** C8 as stated fails at a zero amount: the code resolves to an active
    record that expired at 1000, the call is made at 2000, and the answer
    is the 400 for a missing amount, not an expiry verdict. *)
Lemma expired_promo_zero_amount :
  Db.select_active_promo (promo_store "FLAT500" flat500_min200)
                         (JS.toUpperCase "FLAT500")
  = Some flat500_min200
  /\ 2000 > validUntil flat500_min200
  /\ response (validatePromo 2000
                 {| code := Some "FLAT500"; amount := Some 0%Q |}
                 (promo_store "FLAT500" flat500_min200))
     = mkResponse 400 (ErrorBody "Code and amount are required")
  /\ response (validatePromo 2000
                 {| code := Some "FLAT500"; amount := Some 0%Q |}
                 (promo_store "FLAT500" flat500_min200))
     <> mkResponse 200 (InvalidBody PromoExpired).
Proof. repeat split. discriminate. Qed.

(* ------------------------------------------------------------------ *)
(** ** The store                                                        *)
(* ------------------------------------------------------------------ *)

Section StoreFacts.

Variable db : Store.

(** An accepted row has a positive guest count and is stored with the
    values it was submitted with; only [bookings] grows. *)
Lemma insert_booking_inr (row : NewBooking) b db1 :
  Db.insert_booking db row = inr (b, db1) ->
  db1 = {| experiences := experiences db; slots := slots db;
           bookings := bookings db ++ [b]; promo_codes := promo_codes db |}
  /\ 0 < nb_num_guests row
  /\ nb_base_amount row = Some (base_amount b)
  /\ nb_final_amount row = Some (final_amount b)
  /\ discount_amount b = nb_discount_amount row
  /\ promo_code b = nb_promo_code row
  /\ num_guests b = nb_num_guests row
  /\ booking_reference b = nb_booking_reference row.
Proof.
  unfold Db.insert_booking.
  destruct (nb_base_amount row) as [base |]; [| discriminate].
  destruct (nb_final_amount row) as [final |]; [| discriminate].
  destruct (Z.ltb_spec 0 (nb_num_guests row)) as [Hpos | _];
    [| discriminate].
  cbn [negb].
  destruct (Db.reference_taken db _); [discriminate |].
  destruct (experiences db !! _); [| discriminate].
  destruct (slots db !! _); [| discriminate].
  intros [= <- <-]. cbn. repeat split; auto.
Qed.

(** An accepted update rewrote one row within [valid_booked], or found
    no row. *)
Lemma update_slot_booked_inr (id : string) (v : Z) db' :
  Db.update_slot_booked db id v = inr db' ->
  (slots db !! id = None /\ db' = db)
  \/ exists s, slots db !! id = Some s /\ 0 <= v <= capacity s
       /\ db' = {| experiences := experiences db;
                   slots := <[id := Db.with_booked s v]> (slots db);
                   bookings := bookings db;
                   promo_codes := promo_codes db |}.
Proof.
  unfold Db.update_slot_booked.
  destruct (slots db !! id) as [s |] eqn:Hs.
  - destruct (Db.valid_booked (Db.with_booked s v)) eqn:Hv;
      [| discriminate].
    intros [= <-]. right. exists s. repeat split; auto;
      unfold Db.valid_booked in Hv; cbn in Hv; lia.
  - intros [= <-]. now left.
Qed.

Lemma update_slot_booked_keeps (id : string) (v : Z) db' :
  Db.update_slot_booked db id v = inr db' ->
  slots_within_capacity db -> slots_within_capacity db'.
Proof.
  intros Hup Hinv.
  destruct (update_slot_booked_inr _ _ _ Hup)
    as [[_ ->] | (s & Hs & Hv & ->)]; [exact Hinv |].
  intros id' s'. cbn. rewrite lookup_insert.
  destruct (decide (id = id')) as [-> | Hne].
  - cbn. intros [= <-]. cbn. exact Hv.
  - cbn. apply Hinv.
Qed.

(** After an accepted insert, the counter update computed from a slot
    that passed the capacity test is accepted as well. *)
Lemma update_after_insert_accepted row b db1 id s :
  Db.insert_booking db row = inr (b, db1) ->
  slots db !! id = Some s -> 0 <= booked s ->
  booked s + nb_num_guests row <= capacity s ->
  exists db2,
    Db.update_slot_booked db1 id (booked s + nb_num_guests row) = inr db2.
Proof.
  intros Hins Hs H0 Hle.
  pose proof (insert_booking_inr _ _ _ Hins) as (-> & Hpos & _).
  unfold Db.update_slot_booked. cbn. rewrite Hs.
  assert (Hv : Db.valid_booked
                 (Db.with_booked s (booked s + nb_num_guests row)) = true).
  { unfold Db.valid_booked. cbn. apply andb_true_iff. lia. }
  rewrite Hv. eauto.
Qed.

(** Neither call reads [promo_codes]. *)
Lemma insert_booking_promo_codes (promos : gmap string PromoCode) row :
  Db.insert_booking (with_promo_codes promos db) row =
  match Db.insert_booking db row with
  | inl e => inl e
  | inr (b, db1) => inr (b, with_promo_codes promos db1)
  end.
Proof.
  unfold Db.insert_booking, Db.reference_taken. cbn.
  destruct (nb_base_amount row), (nb_final_amount row); try reflexivity.
  destruct (negb _); [reflexivity |].
  destruct (existsb _ _); [reflexivity |].
  destruct (experiences db !! _); [| reflexivity].
  destruct (slots db !! _); reflexivity.
Qed.

Lemma update_slot_booked_promo_codes (promos : gmap string PromoCode) id v :
  Db.update_slot_booked (with_promo_codes promos db) id v =
  match Db.update_slot_booked db id v with
  | inl e => inl e
  | inr db2 => inr (with_promo_codes promos db2)
  end.
Proof.
  unfold Db.update_slot_booked. cbn.
  destruct (slots db !! id); [| reflexivity].
  destruct (Db.valid_booked _); reflexivity.
Qed.

End StoreFacts.

(** However the writes of overlapping invocations interleave, the
    counters stay within capacity: the update writes an absolute value and
    the store checks it. *)
Lemma interleaved_writes_within_capacity (db db' : Store) :
  rtc store_write db db' ->
  slots_within_capacity db -> slots_within_capacity db'.
Proof.
  induction 1 as [| db db1 db2 Hstep _ IH]; [auto |].
  intros Hinv. apply IH. destruct Hstep as [db row b db1 Hins | db id v db1 Hup].
  - apply insert_booking_inr in Hins as [-> _]. exact Hinv.
  - now apply (update_slot_booked_keeps _ _ _ _ Hup).
Qed.

(* ------------------------------------------------------------------ *)
(** ** The booking handler                                              *)
(* ------------------------------------------------------------------ *)

Lemma request_row_none (random : nat -> Q) (r : BookingRequest) :
  request_row random r = None -> missing_required r = true.
Proof.
  unfold request_row, missing_required.
  destruct (experienceId r), (slotId r), (customerName r), (customerEmail r),
    (customerPhone r), (numGuests r); cbn; intros H; try discriminate H;
    rewrite ?orb_true_r; reflexivity.
Qed.

Lemma request_row_fields (random : nat -> Q) (r : BookingRequest) row :
  request_row random r = Some row ->
  slotId r = Some (nb_slot_id row)
  /\ numGuests r = Some (nb_num_guests row)
  /\ nb_base_amount row = baseAmount r
  /\ nb_discount_amount row = JS.or_num (discountAmount r) 0
  /\ nb_final_amount row = finalAmount r
  /\ nb_promo_code row = JS.or_null (promoCode r)
  /\ nb_booking_reference row = generateBookingReference random.
Proof.
  unfold request_row.
  destruct (experienceId r), (slotId r), (customerName r), (customerEmail r),
    (customerPhone r), (numGuests r); try discriminate.
  intros [= <-]. cbn. repeat split; reflexivity.
Qed.

(** Every invocation takes one of the six paths. *)
Lemma createBooking_path (random : nat -> Q) (r : BookingRequest)
    (db : Store) :
  BookingPath random r db (createBooking random r db).
Proof.
  unfold createBooking.
  destruct (request_row random r) as [row |] eqn:Hrow;
    [| apply request_row_none in Hrow;
       destruct (experienceId r), (slotId r), (customerName r),
         (customerEmail r), (customerPhone r), (numGuests r);
       try (now apply path_missing); rewrite Hrow; now apply path_missing ].
  unfold request_row in Hrow.
  destruct (experienceId r) as [e |] eqn:He; [| discriminate].
  destruct (slotId r) as [id |] eqn:Hid; [| discriminate].
  destruct (customerName r) as [name |] eqn:Hn; [| discriminate].
  destruct (customerEmail r) as [mail |] eqn:Hm; [| discriminate].
  destruct (customerPhone r) as [phone |] eqn:Hp; [| discriminate].
  destruct (numGuests r) as [n |] eqn:Hg; [| discriminate].
  injection Hrow as <-.
  assert (Hrow : request_row random r =
                 Some (booking_row e id name mail phone n r
                         (generateBookingReference random))).
  { unfold request_row. now rewrite He, Hid, Hn, Hm, Hp, Hg. }
  destruct (missing_required r) eqn:Hmiss; [now apply path_missing |].
  unfold Db.select_slot.
  destruct (slots db !! id) as [s |] eqn:Hs; [| now apply path_no_slot].
  destruct (Z.gtb_spec (booked s + n) (capacity s)) as [Hgt | Hle].
  - apply path_full with (n := n) (s := s); auto. lia.
  - cbv zeta.
    destruct (Db.insert_booking db _) as [err | [b db1]] eqn:Hins.
    + eapply path_refused; eauto.
    + destruct (Db.update_slot_booked db1 id (booked s + n))
        as [err | db2] eqn:Hup.
      * eapply path_stranded; eauto.
      * eapply path_confirmed; eauto.
Qed.

Lemma createBooking_keeps (random : nat -> Q) (r : BookingRequest)
    (db : Store) :
  slots_within_capacity db ->
  slots_within_capacity (store (createBooking random r db)).
Proof.
  intros Hinv.
  destruct (createBooking_path random r db)
    as [ | | | | id n s row b db1 e _ _ _ _ _ _ Hins _
         | id n s row b db1 db2 _ _ _ _ _ _ Hins Hup ]; cbn; auto.
  - apply insert_booking_inr in Hins as [-> _]. exact Hinv.
  - apply (update_slot_booked_keeps _ _ _ _ Hup).
    apply insert_booking_inr in Hins as [-> _]. exact Hinv.
Qed.

(** C1. Starting from a store in which every slot has
    [0 <= booked <= capacity], the same holds of every slot in every store
    met before and after each operation of any sequence of booking
    operations. *)
Theorem booked_within_capacity (ops : list ((nat -> Q) * BookingRequest))
    (db : Store) :
  slots_within_capacity db ->
  forall db', In db' (trajectory ops db) ->
  forall id s, slots db' !! id = Some s -> 0 <= booked s <= capacity s.
Proof.
  revert db. induction ops as [| [random r] ops IH]; intros db Hinv db' Hin.
  - destruct Hin as [<- | []]. exact Hinv.
  - destruct Hin as [<- | Hin]; [exact Hinv |].
    apply (IH (store (createBooking random r db))); [| exact Hin].
    now apply createBooking_keeps.
Qed.

Lemma sample_store_within_capacity : slots_within_capacity sample_store.
Proof.
  intros id s H. unfold sample_store in H. cbn [slots] in H.
  apply lookup_singleton_Some in H as [_ <-]. cbn. lia.
Qed.

Lemma booked_within_capacity_witness :
  0 <= booked (Db.with_booked sample_slot 10)
    <= capacity (Db.with_booked sample_slot 10).
Proof.
  apply (booked_within_capacity
           [(sample_random, sample_request); (other_random, sample_request)]
           sample_store sample_store_within_capacity
           (store (createBooking sample_random sample_request sample_store)))
    with (id := "slot-1").
  - right. left. reflexivity.
  - vm_compute. reflexivity.
Defined.

(** In a store within capacity the stranded path is never taken: once the
    counter update is issued it is accepted, because the handler's test and
    the positive guest count the insert demands already give
    [valid_booked]. *)
Lemma counter_update_accepted (random : nat -> Q) (r : BookingRequest)
    (db : Store) id v :
  slots_within_capacity db ->
  In (UpdateSlot id v) (calls (createBooking random r db)) ->
  confirmed (createBooking random r db) = true.
Proof.
  intros Hinv.
  destruct (createBooking_path random r db)
    as [ | | | | i n s row b db1 e _ _ Hn Hs Hle Hrow Hins Hup | ];
    cbn; try (intuition discriminate).
  intros _. exfalso.
  pose proof (request_row_fields _ _ _ Hrow) as (_ & Hg & _).
  rewrite Hn in Hg. injection Hg as ->.
  destruct (Hinv i s Hs) as [H0 _].
  destruct (update_after_insert_accepted _ _ _ _ _ _ Hins Hs H0 Hle)
    as [db2 Hup2].
  congruence.
Qed.

(** The boundary case: capacity 10, 9 booked; one guest is taken and the
    counter becomes 10; the next request for one guest is turned away. *)
Example capacity_boundary :
  confirmed (createBooking sample_random sample_request sample_store) = true
  /\ (booked <$> slots (store (createBooking sample_random sample_request
                                 sample_store)) !! "slot-1") = Some 10
  /\ response (createBooking other_random sample_request
                 (store (createBooking sample_random sample_request
                           sample_store)))
     = mkResponse 400 (ErrorBody "Not enough capacity available").
Proof. vm_compute. repeat split. Qed.







Lemma createBooking_promo_codes (random : nat -> Q) (r : BookingRequest)
    (db : Store) (promos : gmap string PromoCode) :
  createBooking random r (with_promo_codes promos db) =
  mkOutcome (response (createBooking random r db))
            (with_promo_codes promos (store (createBooking random r db)))
            (calls (createBooking random r db)).
Proof.
  unfold createBooking.
  destruct (experienceId r), (slotId r), (customerName r), (customerEmail r),
    (customerPhone r), (numGuests r); try reflexivity.
  destruct (missing_required r); [reflexivity |].
  unfold Db.select_slot. cbn [slots with_promo_codes].
  destruct (slots db !! _) as [sl |]; [| reflexivity].
  destruct (_ >? _); [reflexivity |].
  cbv zeta. rewrite insert_booking_promo_codes.
  destruct (Db.insert_booking db _) as [e | [b db1]]; [reflexivity |].
  rewrite update_slot_booked_promo_codes.
  destruct (Db.update_slot_booked db1 _ _); reflexivity.
Qed.

(** C4, as the code has it. The booking handler does not validate promo
    codes: whatever the [promo_codes] relation holds, the response is the
    same and the rest of the store evolves the same way; no promo lookup is
    among the store calls; and a confirmed booking carries the promo code
    of the request as it came ([null] when absent or empty). *)
Theorem booking_ignores_promo_codes (random : nat -> Q) (r : BookingRequest)
    (db : Store) (promos : gmap string PromoCode) :
  response (createBooking random r (with_promo_codes promos db))
    = response (createBooking random r db)
  /\ store (createBooking random r (with_promo_codes promos db))
    = with_promo_codes promos (store (createBooking random r db))
  /\ (forall c, ~ In (SelectPromo c) (calls (createBooking random r db)))
  /\ (forall b, body (response (createBooking random r db)) = DataBody b ->
      promo_code b = JS.or_null (promoCode r)).
Proof.
  rewrite createBooking_promo_codes. cbn. split; [reflexivity |].
  split; [reflexivity |].
  destruct (createBooking_path random r db) as
    [ | | | | | i m t row b' db1 db2 ? ? ? ? ? Hrow Hins Hup ]; cbn;
    (split; [intros c Hin; intuition discriminate |]); try discriminate.
  intros b [= ->].
  pose proof (request_row_fields _ _ _ Hrow) as (_ & _ & _ & _ & _ & Hp & _).
  pose proof (insert_booking_inr _ _ _ _ Hins)
    as (_ & _ & _ & _ & _ & Hp' & _).
  congruence.
Qed.

Lemma booking_ignores_promo_codes_witness :
  promo_code (stored_booking 149 149 0 (Some "BOGUS"))
  = JS.or_null (promoCode bogus_promo_request).
Proof.
  apply (booking_ignores_promo_codes sample_random bogus_promo_request
           sample_store ∅).
  reflexivity.
Defined.

(** C4 as stated fails: the store holds no promo code [BOGUS], yet a
    request naming it, with the whole amount claimed as discount, is
    confirmed and stored with that code and that discount; the store calls
    of the run contain no promo lookup. *)
Lemma unknown_promo_code_booked :
  promoCode bogus_promo_request = Some "BOGUS"
  /\ Db.select_active_promo sample_store (JS.toUpperCase "BOGUS") = None
  /\ response (createBooking sample_random bogus_promo_request sample_store)
     = mkResponse 200 (DataBody (stored_booking 149 149 0 (Some "BOGUS")))
  /\ calls (createBooking sample_random bogus_promo_request sample_store)
     = [SelectSlot "slot-1";
        InsertBooking
          (booking_row "exp-1" "slot-1" "Ada Lovelace" "ada@example.org"
             "+44 20 7946 0000" 1 bogus_promo_request "BKAAAAAAAA");
        UpdateSlot "slot-1" 10].
Proof. vm_compute. repeat split. Qed.

(** C6, as the code has it. The capacity test on the slot read first
    precedes the insert of the booking row, and the insert precedes the
    write of the counter: whenever the counter update is issued it is the
    third call, after the slot read and an insert the store accepted; and
    whenever a row is submitted, the slot had been read and
    [booked + numGuests <= capacity] held of it. *)
Theorem insert_before_counter_update (random : nat -> Q)
    (r : BookingRequest) (db : Store) :
  (forall id v,
     In (UpdateSlot id v) (calls (createBooking random r db)) ->
     exists row b db1,
       calls (createBooking random r db)
         = [SelectSlot id; InsertBooking row; UpdateSlot id v]
       /\ Db.insert_booking db row = inr (b, db1))
  /\ (forall row,
     In (InsertBooking row) (calls (createBooking random r db)) ->
     exists id s,
       Db.select_slot db id = Some s
       /\ booked s + nb_num_guests row <= capacity s
       /\ exists rest, calls (createBooking random r db)
                       = SelectSlot id :: InsertBooking row :: rest).
Proof.
  destruct (createBooking_path random r db) as
    [ | | | i m t row e ? ? Hm Ht Hle Hrow Hins
      | i m t row b db1 e ? ? Hm Ht Hle Hrow Hins Hup
      | i m t row b db1 db2 ? ? Hm Ht Hle Hrow Hins Hup ]; cbn;
    (split; [intros u w Hin | intros row0 Hin]);
    repeat match goal with
    | H : _ \/ _ |- _ => destruct H
    | H : False |- _ => destruct H
    | H : SelectSlot _ = _ |- _ => discriminate H
    | H : InsertBooking _ = UpdateSlot _ _ |- _ => discriminate H
    | H : UpdateSlot _ _ = InsertBooking _ |- _ => discriminate H
    | H : InsertBooking _ = InsertBooking _ |- _ => injection H as <-
    | H : UpdateSlot _ _ = UpdateSlot _ _ |- _ => injection H as <- <-
    end;
    try (pose proof (request_row_fields _ _ _ Hrow) as (_ & Hg & _);
         rewrite Hm in Hg; injection Hg as Hg;
         exists i, t; unfold Db.select_slot; rewrite <- Hg; eauto);
    eauto.
Qed.

Lemma insert_before_counter_update_witness :
  exists row b db1,
    calls (createBooking sample_random sample_request sample_store)
      = [SelectSlot "slot-1"; InsertBooking row; UpdateSlot "slot-1" 10]
    /\ Db.insert_booking sample_store row = inr (b, db1).
Proof.
  apply (insert_before_counter_update sample_random sample_request
           sample_store).
  vm_compute. auto.
Defined.

(** C6 as stated fails: in a confirmed booking the three store calls are
    the slot read, then the insert of the booking row, then the update
    that raises [booked] from 9 to 10; the increment comes last. *)
Lemma booking_row_precedes_reservation :
  calls (createBooking sample_random sample_request sample_store)
  = [SelectSlot "slot-1";
     InsertBooking
       (booking_row "exp-1" "slot-1" "Ada Lovelace" "ada@example.org"
          "+44 20 7946 0000" 1 sample_request "BKAAAAAAAA");
     UpdateSlot "slot-1" 10]
  /\ (booked <$> slots sample_store !! "slot-1") = Some 9
  /\ bookings (store (createBooking sample_random sample_request
                        sample_store))
     = [stored_booking 149 0 149 None]
  /\ (booked <$> slots (store (createBooking sample_random sample_request
                                 sample_store)) !! "slot-1") = Some 10.
Proof. vm_compute. repeat split. Qed.





(* ------------------------------------------------------------------ *)
(** ** Further properties of the booking handler                        *)
(* ------------------------------------------------------------------ *)

(** An accepted row is stored field by field, under a reference no stored
    booking has yet, for an experience and a slot the store holds. *)
Lemma insert_booking_row (db : Store) (row : NewBooking) b db1 :
  Db.insert_booking db row = inr (b, db1) ->
  experience_id b = nb_experience_id row
  /\ slot_id b = nb_slot_id row
  /\ customer_name b = nb_customer_name row
  /\ customer_email b = nb_customer_email row
  /\ customer_phone b = nb_customer_phone row
  /\ status b = nb_status row
  /\ Db.reference_taken db (nb_booking_reference row) = false
  /\ is_Some (experiences db !! nb_experience_id row)
  /\ is_Some (slots db !! nb_slot_id row).
Proof.
  unfold Db.insert_booking.
  destruct (nb_base_amount row) as [base |]; [| discriminate].
  destruct (nb_final_amount row) as [final |]; [| discriminate].
  destruct (negb _); [discriminate |].
  destruct (Db.reference_taken db _); [discriminate |].
  destruct (experiences db !! _); [| discriminate].
  destruct (slots db !! _); [| discriminate].
  intros [= <- <-]. cbn. repeat split; eauto.
Qed.

Lemma request_row_identity (random : nat -> Q) (r : BookingRequest) row :
  request_row random r = Some row ->
  experienceId r = Some (nb_experience_id row)
  /\ customerName r = Some (nb_customer_name row)
  /\ customerEmail r = Some (nb_customer_email row)
  /\ customerPhone r = Some (nb_customer_phone row)
  /\ nb_status row = "confirmed".
Proof.
  unfold request_row.
  destruct (experienceId r), (slotId r), (customerName r), (customerEmail r),
    (customerPhone r), (numGuests r); try discriminate.
  intros [= <-]. cbn. repeat split; reflexivity.
Qed.

(** What a confirmed booking is made of. *)
Lemma confirmed_path_facts (random : nat -> Q) (r : BookingRequest)
    (db : Store) b :
  body (response (createBooking random r db)) = DataBody b ->
  exists id n s row db1,
    missing_required r = false /\ slotId r = Some id /\ numGuests r = Some n
    /\ slots db !! id = Some s /\ booked s + n <= capacity s
    /\ request_row random r = Some row
    /\ Db.insert_booking db row = inr (b, db1)
    /\ Db.update_slot_booked db1 id (booked s + n)
       = inr (store (createBooking random r db))
    /\ calls (createBooking random r db)
       = [SelectSlot id; InsertBooking row; UpdateSlot id (booked s + n)].
Proof.
  destruct (createBooking_path random r db) as
    [ | | | | | id n s row b' db1 db2 ]; cbn; try discriminate.
  intros [= ->]. exists id, n, s, row, db1. repeat split; assumption.
Qed.

(** X1. The answer is 404 [Slot not found] exactly when the request passes
    the required-field check and names a slot the store does not hold; the
    store is then left as it was and only the slot was read. *)
Theorem slot_not_found_exactly (random : nat -> Q) (r : BookingRequest)
    (db : Store) :
  http_status (response (createBooking random r db)) = 404 <->
  missing_required r = false
  /\ exists id, slotId r = Some id /\ slots db !! id = None
     /\ createBooking random r db =
        mkOutcome (mkResponse 404 (ErrorBody "Slot not found")) db
                  [SelectSlot id].
Proof.
  split.
  - destruct (createBooking_path random r db) as [ | id Hm Hid Hs | | | | ];
      cbn; try discriminate.
    intros _. split; [exact Hm |]. exists id. auto.
  - intros (_ & id & _ & _ & ->). reflexivity.
Qed.

(** X2. Whatever the request, [createBooking] leaves the experiences and
    the promo codes alone, neither creates nor removes a slot, changes no
    slot other than the one the request names, changes nothing of that one
    but [booked], never lowers [booked], and only ever appends to the
    bookings, one row at most. *)
Theorem createBooking_frame (random : nat -> Q) (r : BookingRequest)
    (db : Store) :
  experiences (store (createBooking random r db)) = experiences db
  /\ promo_codes (store (createBooking random r db)) = promo_codes db
  /\ dom (slots (store (createBooking random r db))) = dom (slots db)
  /\ (forall id s',
      slots (store (createBooking random r db)) !! id = Some s' ->
      exists s, slots db !! id = Some s
        /\ s' = Db.with_booked s (booked s')
        /\ booked s <= booked s'
        /\ (slotId r <> Some id -> s' = s))
  /\ exists new : list Booking,
      bookings (store (createBooking random r db)) = (bookings db ++ new)%list
      /\ (length new <= 1)%nat.
Proof.
  assert (Hsame : forall s : Slot, s = Db.with_booked s (booked s))
    by (intros []; reflexivity).
  assert (Hkeep : forall id s', slots db !! id = Some s' ->
            exists s, slots db !! id = Some s
              /\ s' = Db.with_booked s (booked s') /\ booked s <= booked s'
              /\ (slotId r <> Some id -> s' = s)).
  { intros id s' H. exists s'. repeat split; auto. lia. }
  destruct (createBooking_path random r db) as
    [ | | | | i n s row b db1 e ? Hi Hn Hs Hle Hrow Hins Hup
      | i n s row b db1 db2 ? Hi Hn Hs Hle Hrow Hins Hup ]; cbn;
    try (repeat split; auto; exists []; rewrite app_nil_r; auto).
  - pose proof (insert_booking_inr _ _ _ _ Hins) as (-> & _). cbn.
    repeat split; auto. exists [b]. auto.
  - pose proof (insert_booking_inr _ _ _ _ Hins) as (-> & Hpos & _).
    pose proof (request_row_fields _ _ _ Hrow) as (_ & Hg & _).
    rewrite Hn in Hg. injection Hg as ->.
    destruct (update_slot_booked_inr _ _ _ _ Hup)
      as [[Hnone _] | (s1 & Hs1 & _ & ->)]; cbn in *; [congruence |].
    rewrite Hs in Hs1. injection Hs1 as <-.
    repeat split; auto.
    + apply dom_insert_lookup_L. eauto.
    + intros id s'. rewrite lookup_insert.
      destruct (decide (i = id)) as [<- | Hne]; cbn.
      * intros [= <-]. exists s. cbn. repeat split; auto; [lia | congruence].
      * apply Hkeep.
    + exists [b]. auto.
Qed.

(** X3. In a store within capacity a booking attempt is all or nothing:
    the store is left exactly as it was if and only if the booking is not
    confirmed. *)
Theorem unconfirmed_changes_nothing (random : nat -> Q) (r : BookingRequest)
    (db : Store) :
  slots_within_capacity db ->
  (confirmed (createBooking random r db) = false <->
   store (createBooking random r db) = db).
Proof.
  intros Hinv.
  destruct (createBooking_path random r db) as
    [ | | | | i n s row b db1 e ? Hi Hn Hs Hle Hrow Hins Hup
      | i n s row b db1 db2 ? Hi Hn Hs Hle Hrow Hins Hup ]; cbn;
    try (split; reflexivity).
  - exfalso.
    pose proof (request_row_fields _ _ _ Hrow) as (_ & Hg & _).
    rewrite Hn in Hg. injection Hg as ->.
    destruct (Hinv i s Hs) as [H0 _].
    destruct (update_after_insert_accepted _ _ _ _ _ _ Hins Hs H0 Hle)
      as [db2 Hup2].
    congruence.
  - split; [discriminate |]. intros ->. exfalso.
    pose proof (insert_booking_inr _ _ _ _ Hins) as (-> & _).
    destruct (update_slot_booked_inr _ _ _ _ Hup)
      as [[_ Heq] | (s1 & _ & _ & Heq)];
      apply (f_equal (fun d => length (bookings d))) in Heq; cbn in Heq;
      rewrite length_app in Heq; cbn in Heq; lia.
Qed.

Lemma unconfirmed_changes_nothing_witness :
  confirmed (createBooking sample_random (with_guests (Some 5) sample_request)
               sample_store) = false <->
  store (createBooking sample_random (with_guests (Some 5) sample_request)
           sample_store) = sample_store.
Proof.
  apply unconfirmed_changes_nothing.
  intros id s H. unfold sample_store in H. cbn [slots] in H.
  apply lookup_singleton_Some in H as [_ <-]. cbn. lia.
Defined.

Lemma reference_taken_spec (db : Store) (ref : string) :
  Db.reference_taken db ref = true <->
  In ref (map booking_reference (bookings db)).
Proof.
  unfold Db.reference_taken. rewrite existsb_exists, in_map_iff.
  split; intros (b & H1 & H2); exists b.
  - apply String.eqb_eq in H2. auto.
  - split; [exact H2 | now apply String.eqb_eq].
Qed.

Lemma createBooking_keeps_references (random : nat -> Q) (r : BookingRequest)
    (db : Store) :
  references_unique db ->
  references_unique (store (createBooking random r db)).
Proof.
  intros Hu.
  assert (Hins_ok : forall row b db1,
            Db.insert_booking db row = inr (b, db1) -> references_unique db1).
  { intros row b db1 Hins.
    pose proof (insert_booking_inr _ _ _ _ Hins) as (-> & _ & _ & _ & _ & _ & _ & Hr).
    pose proof (insert_booking_row _ _ _ _ Hins) as (_ & _ & _ & _ & _ & _ & Hf & _).
    unfold references_unique in *. cbn. rewrite map_app. cbn.
    apply NoDup_app. split; [exact Hu |]. split.
    - intros x Hx Hin. apply list_elem_of_In in Hx.
      apply list_elem_of_In in Hin. destruct Hin as [<- | []].
      rewrite Hr in Hx. apply reference_taken_spec in Hx. congruence.
    - apply NoDup_singleton. }
  destruct (createBooking_path random r db) as
    [ | | | | i n s row b db1 e ? Hi Hn Hs Hle Hrow Hins Hup
      | i n s row b db1 db2 ? Hi Hn Hs Hle Hrow Hins Hup ]; cbn; auto.
  - eapply Hins_ok; eauto.
  - specialize (Hins_ok _ _ _ Hins).
    destruct (update_slot_booked_inr _ _ _ _ Hup)
      as [[_ ->] | (s1 & _ & _ & ->)]; exact Hins_ok.
Qed.

(** X4. Along any sequence of booking operations the stored bookings keep
    pairwise distinct references, provided they had them at the start. *)
Theorem references_stay_unique (ops : list ((nat -> Q) * BookingRequest))
    (db : Store) :
  references_unique db ->
  forall db', In db' (trajectory ops db) -> references_unique db'.
Proof.
  revert db. induction ops as [| [random r] ops IH]; intros db Hu db' Hin.
  - destruct Hin as [<- | []]. exact Hu.
  - destruct Hin as [<- | Hin]; [exact Hu |].
    apply (IH (store (createBooking random r db))); [| exact Hin].
    now apply createBooking_keeps_references.
Qed.

Lemma references_stay_unique_witness :
  references_unique
    (store (createBooking sample_random sample_request
              (store (createBooking sample_random sample_request
                        (with_capacity 20 sample_store))))).
Proof.
  apply (references_stay_unique
           [(sample_random, sample_request); (sample_random, sample_request)]
           (with_capacity 20 sample_store)).
  - apply NoDup_nil_2.
  - right. right. left. reflexivity.
Defined.

(** X5. A generated reference that a stored booking already carries is not
    drawn again: with the fields present, room in the slot, both amounts
    given and a positive guest count, the request is answered 500 with the
    store's unique-violation message, and nothing is written. *)
Theorem reference_collision_fails (random : nat -> Q) (r : BookingRequest)
    (db : Store) id n s base final :
  missing_required r = false -> slotId r = Some id -> numGuests r = Some n ->
  slots db !! id = Some s -> booked s + n <= capacity s -> 0 < n ->
  baseAmount r = Some base -> finalAmount r = Some final ->
  In (generateBookingReference random) (map booking_reference (bookings db)) ->
  exists row,
    createBooking random r db =
    mkOutcome
      (mkResponse 500
         (ErrorBody (message (UniqueViolation "bookings_booking_reference_key"))))
      db [SelectSlot id; InsertBooking row].
Proof.
  intros Hmiss Hid Hn Hs Hle Hpos Hb Hf Hin.
  apply reference_taken_spec in Hin.
  assert (Hrefuse : forall row, request_row random r = Some row ->
            Db.insert_booking db row
            = inl (UniqueViolation "bookings_booking_reference_key")).
  { intros row Hrow.
    pose proof (request_row_fields _ _ _ Hrow) as (_ & Hg & Hb' & _ & Hf' & _ & Hr).
    rewrite Hn in Hg. injection Hg as Hg.
    unfold Db.insert_booking. rewrite Hb', Hb, Hf', Hf, <- Hg, Hr, Hin.
    destruct (Z.ltb_spec 0 n); [reflexivity | lia]. }
  destruct (createBooking_path random r db) as
    [ ? | i ? Hi ? | i m t ? Hi Hm Ht ? | i m t row e ? Hi Hm Ht ? Hrow Hins
      | i m t row b db1 e ? Hi Hm Ht ? Hrow Hins Hup
      | i m t row b db1 db2 ? Hi Hm Ht ? Hrow Hins Hup ];
    try congruence;
    rewrite Hid in Hi; injection Hi as <-;
    rewrite Hn in Hm; injection Hm as <-;
    rewrite Hs in Ht; injection Ht as <-; try lia;
    rewrite (Hrefuse _ Hrow) in Hins; try discriminate.
  injection Hins as <-. eauto.
Qed.

Lemma reference_collision_fails_witness :
  exists row,
    createBooking sample_random sample_request
      (store (createBooking sample_random sample_request
                (with_capacity 20 sample_store))) =
    mkOutcome
      (mkResponse 500
         (ErrorBody (message (UniqueViolation "bookings_booking_reference_key"))))
      (store (createBooking sample_random sample_request
                (with_capacity 20 sample_store)))
      [SelectSlot "slot-1"; InsertBooking row].
Proof.
  apply (reference_collision_fails sample_random sample_request _ "slot-1" 1
           (Db.with_booked (slot_with_capacity sample_slot 20) 10) 149%Q 149%Q);
    try reflexivity; try (cbn; lia).
  vm_compute. auto.
Defined.

Lemma guests_of_app (id : string) (bs : list Booking) (b : Booking) :
  guests_of id (bs ++ [b]) =
  guests_of id bs + (if String.eqb (slot_id b) id then num_guests b else 0).
Proof.
  unfold guests_of. induction bs as [| a bs IH]; cbn.
  - destruct (String.eqb (slot_id b) id); lia.
  - rewrite IH. destruct (String.eqb (slot_id a) id); lia.
Qed.

Lemma createBooking_keeps_counters (random : nat -> Q) (r : BookingRequest)
    (db : Store) :
  slots_within_capacity db -> counters_match db ->
  counters_match (store (createBooking random r db)).
Proof.
  intros Hinv Hc.
  destruct (createBooking_path random r db) as
    [ | | | | i n s row b db1 e ? Hi Hn Hs Hle Hrow Hins Hup
      | i n s row b db1 db2 ? Hi Hn Hs Hle Hrow Hins Hup ]; cbn; auto.
  - exfalso.
    pose proof (request_row_fields _ _ _ Hrow) as (_ & Hg & _).
    rewrite Hn in Hg. injection Hg as ->.
    destruct (Hinv i s Hs) as [H0 _].
    destruct (update_after_insert_accepted _ _ _ _ _ _ Hins Hs H0 Hle)
      as [db2 Hup2].
    congruence.
  - pose proof (request_row_fields _ _ _ Hrow) as (Hsl & Hg & _).
    rewrite Hn in Hg. injection Hg as Hg.
    rewrite Hi in Hsl. injection Hsl as Hsl.
    pose proof (insert_booking_row _ _ _ _ Hins) as (_ & Hslot & _).
    pose proof (insert_booking_inr _ _ _ _ Hins)
      as (-> & _ & _ & _ & _ & _ & Hnum & _).
    destruct (update_slot_booked_inr _ _ _ _ Hup)
      as [[Hnone _] | (s1 & Hs1 & _ & ->)]; cbn in *; [congruence |].
    rewrite Hs in Hs1. injection Hs1 as <-.
    unfold counters_match. cbn [slots bookings]. intros id s'.
    rewrite guests_of_app, lookup_insert.
    destruct (decide (i = id)) as [<- | Hne]; cbn.
    + intros [= <-]. cbn. rewrite Hslot, <- Hsl, String.eqb_refl.
      rewrite (Hc i s Hs). lia.
    + intros Hs'. rewrite (Hc id s' Hs').
      assert (E : String.eqb (slot_id b) id = false).
      { apply String.eqb_neq. congruence. }
      rewrite E. lia.
Qed.

(** X6. No overbooking in sequence: starting from a store within capacity
    whose counters equal the guests of the stored bookings, every store met
    along any sequence of booking operations has, for every slot, [booked]
    equal to the guests of the bookings stored for it, and those guests
    never exceed the capacity. *)
Theorem guests_never_exceed_capacity
    (ops : list ((nat -> Q) * BookingRequest)) (db : Store) :
  slots_within_capacity db -> counters_match db ->
  forall db', In db' (trajectory ops db) ->
  forall id s, slots db' !! id = Some s ->
    booked s = guests_of id (bookings db')
    /\ guests_of id (bookings db') <= capacity s.
Proof.
  revert db. induction ops as [| [random r] ops IH];
    intros db Hinv Hc db' Hin id s Hs.
  - destruct Hin as [<- | []].
    rewrite <- (Hc id s Hs). split; [reflexivity | apply (Hinv id s Hs)].
  - destruct Hin as [<- | Hin].
    + rewrite <- (Hc id s Hs). split; [reflexivity | apply (Hinv id s Hs)].
    + apply (IH (store (createBooking random r db))) with (db' := db'); auto.
      * now apply createBooking_keeps.
      * now apply createBooking_keeps_counters.
Qed.

Lemma guests_never_exceed_capacity_witness :
  booked (Db.with_booked sample_slot 3)
  = guests_of "slot-1"
      (bookings (store (createBooking sample_random
                          (with_guests (Some 3) sample_request) open_store)))
  /\ guests_of "slot-1"
       (bookings (store (createBooking sample_random
                           (with_guests (Some 3) sample_request) open_store)))
     <= capacity (Db.with_booked sample_slot 3).
Proof.
  apply (guests_never_exceed_capacity
           [(sample_random, with_guests (Some 3) sample_request)] open_store)
    with (db' := store (createBooking sample_random
                          (with_guests (Some 3) sample_request) open_store)).
  - intros id s H. unfold open_store in H. cbn [slots] in H.
    apply lookup_singleton_Some in H as [_ <-]. cbn. lia.
  - intros id s H. unfold open_store in H. cbn [slots] in H.
    apply lookup_singleton_Some in H as [_ <-]. reflexivity.
  - right. left. reflexivity.
  - vm_compute. reflexivity.
Defined.

(** X7. The booking in a 200 answer is the row the store holds last: it
    carries the experience, slot, customer fields and guest count of the
    request, a positive guest count, the status [confirmed] and the
    reference that was generated, and the bookings of the new store are the
    old ones followed by it. *)
Theorem confirmed_booking_echoes_request (random : nat -> Q)
    (r : BookingRequest) (db : Store) b :
  body (response (createBooking random r db)) = DataBody b ->
  experienceId r = Some (experience_id b)
  /\ slotId r = Some (slot_id b)
  /\ customerName r = Some (customer_name b)
  /\ customerEmail r = Some (customer_email b)
  /\ customerPhone r = Some (customer_phone b)
  /\ numGuests r = Some (num_guests b) /\ 0 < num_guests b
  /\ status b = "confirmed"
  /\ booking_reference b = generateBookingReference random
  /\ bookings (store (createBooking random r db)) = (bookings db ++ [b])%list.
Proof.
  intros Hb.
  destruct (confirmed_path_facts _ _ _ _ Hb)
    as (id & n & s & row & db1 & _ & _ & _ & _ & _ & Hrow & Hins & Hup & _).
  pose proof (request_row_fields _ _ _ Hrow) as (Hsl & Hg & _ & _ & _ & _ & Hr).
  pose proof (request_row_identity _ _ _ Hrow) as (He & Hn & Hm & Hp & Hst).
  pose proof (insert_booking_row _ _ _ _ Hins)
    as (He' & Hsl' & Hn' & Hm' & Hp' & Hst' & _).
  pose proof (insert_booking_inr _ _ _ _ Hins)
    as (Hdb1 & Hpos & _ & _ & _ & _ & Hg' & Hr').
  rewrite He', Hsl', Hn', Hm', Hp', Hst', Hg', Hr'.
  repeat split; auto.
  subst db1.
  destruct (update_slot_booked_inr _ _ _ _ Hup) as [[_ ->] | (? & _ & _ & ->)];
    reflexivity.
Qed.

Lemma confirmed_booking_echoes_request_witness :
  experienceId sample_request = Some (experience_id (stored_booking 149 0 149 None))
  /\ slotId sample_request = Some (slot_id (stored_booking 149 0 149 None))
  /\ customerName sample_request
     = Some (customer_name (stored_booking 149 0 149 None))
  /\ customerEmail sample_request
     = Some (customer_email (stored_booking 149 0 149 None))
  /\ customerPhone sample_request
     = Some (customer_phone (stored_booking 149 0 149 None))
  /\ numGuests sample_request = Some (num_guests (stored_booking 149 0 149 None))
  /\ 0 < num_guests (stored_booking 149 0 149 None)
  /\ status (stored_booking 149 0 149 None) = "confirmed"
  /\ booking_reference (stored_booking 149 0 149 None)
     = generateBookingReference sample_random
  /\ bookings (store (createBooking sample_random sample_request sample_store))
     = (bookings sample_store ++ [stored_booking 149 0 149 None])%list.
Proof.
  apply (confirmed_booking_echoes_request sample_random sample_request
           sample_store).
  reflexivity.
Defined.

(* ------------------------------------------------------------------ *)
(** ** Further properties of promo validation                           *)
(* ------------------------------------------------------------------ *)

Lemma upper_ascii_idempotent (c : ascii) :
  JS.upper_ascii (JS.upper_ascii c) = JS.upper_ascii c.
Proof. destruct c as [[] [] [] [] [] [] [] []]; reflexivity. Qed.

Lemma toUpperCase_idempotent (s : string) :
  JS.toUpperCase (JS.toUpperCase s) = JS.toUpperCase s.
Proof.
  induction s as [| c s IH]; cbn; [reflexivity |].
  now rewrite upper_ascii_idempotent, IH.
Qed.

Lemma toUpperCase_empty (s : string) : JS.toUpperCase s = "" <-> s = "".
Proof. destruct s; cbn; split; congruence. Qed.

(** The guard: an empty or missing code, or a zero or missing amount. *)
Lemma validatePromo_guard (now : Z) (r : PromoRequest) (db : Store) :
  JS.truthy_string (code r) = false \/ JS.truthy_num (amount r) = false ->
  validatePromo now r db =
  mkOutcome (mkResponse 400 (ErrorBody "Code and amount are required")) db [].
Proof.
  intros Hf. unfold validatePromo.
  destruct (code r) as [c |], (amount r) as [a |]; try reflexivity.
  destruct Hf as [-> | ->]; cbn; [reflexivity |].
  now rewrite orb_true_r.
Qed.

(** Past the guard: the lookup and the checks. *)
Lemma validatePromo_lookup (now : Z) (r : PromoRequest) (db : Store) c a :
  code r = Some c -> amount r = Some a ->
  JS.truthy_string (code r) = true -> JS.truthy_num (amount r) = true ->
  validatePromo now r db =
  match Db.select_active_promo db (JS.toUpperCase c) with
  | None => mkOutcome (mkResponse 200 (InvalidBody InvalidPromoCode)) db
                      [SelectPromo (JS.toUpperCase c)]
  | Some p =>
    if out_of_window now p
    then mkOutcome (mkResponse 200 (InvalidBody PromoExpired)) db
                   [SelectPromo (JS.toUpperCase c)]
    else match below_minimum p a with
         | Some m =>
           mkOutcome (mkResponse 200 (InvalidBody (MinimumPurchase m))) db
                     [SelectPromo (JS.toUpperCase c)]
         | None =>
           mkOutcome (mkResponse 200
             (ValidBody (JS.Math_min (raw_discount p a) a)
                        (a - JS.Math_min (raw_discount p a) a)%Q)) db
             [SelectPromo (JS.toUpperCase c)]
         end
  end.
Proof.
  intros Hc Ha Hts Htn. unfold validatePromo. rewrite Hts, Htn, Hc, Ha. cbn.
  reflexivity.
Qed.

Lemma truthy_cases (r : PromoRequest) :
  (JS.truthy_string (code r) = false \/ JS.truthy_num (amount r) = false)
  \/ exists c a, code r = Some c /\ amount r = Some a
       /\ JS.truthy_string (code r) = true /\ JS.truthy_num (amount r) = true.
Proof.
  destruct (JS.truthy_string (code r)) eqn:Hs; [| now left; left].
  destruct (JS.truthy_num (amount r)) eqn:Hn; [| now left; right].
  right. destruct (code r) as [c |]; [| discriminate].
  destruct (amount r) as [a |]; [| discriminate].
  exists c, a. repeat split; reflexivity.
Qed.

(** X8. Promo validation only reads: whatever the method, the request and
    the instant, the store is left as it was, and the store is either not
    consulted at all or asked once, for the upper-cased code. *)
Theorem promo_validation_reads_only (now : Z) (m : Method) (r : PromoRequest)
    (db : Store) :
  store (promo_handler now m r db) = db
  /\ (calls (promo_handler now m r db) = []
      \/ exists c, code r = Some c
           /\ calls (promo_handler now m r db) = [SelectPromo (JS.toUpperCase c)]).
Proof.
  destruct m; cbn; auto.
  destruct (truthy_cases r) as [Hf | (c & a & Hc & Ha & Hts & Htn)].
  - rewrite (validatePromo_guard now r db Hf). auto.
  - rewrite (validatePromo_lookup now r db c a Hc Ha Hts Htn).
    destruct (Db.select_active_promo db _) as [p |]; [| cbn; eauto].
    destruct (out_of_window now p); [cbn; eauto |].
    destruct (below_minimum p a); cbn; eauto.
Qed.

(** X9. The code is matched without regard to ASCII case: two requests
    whose codes have the same upper-case form, for the same amount, get the
    same answer. *)
Theorem promo_code_case_insensitive (now : Z) (db : Store) (c1 c2 : string)
    (a : option Q) :
  JS.toUpperCase c1 = JS.toUpperCase c2 ->
  validatePromo now {| code := Some c1; amount := a |} db =
  validatePromo now {| code := Some c2; amount := a |} db.
Proof.
  intros Hu. unfold validatePromo. cbn.
  assert (He : String.eqb c1 "" = String.eqb c2 "").
  { destruct (String.eqb_spec c1 "") as [-> | H1].
    - cbn in Hu. symmetry in Hu.
      rewrite (proj1 (toUpperCase_empty c2) Hu). reflexivity.
    - destruct (String.eqb_spec c2 "") as [-> | H2]; [| reflexivity].
      cbn in Hu. elim H1. exact (proj1 (toUpperCase_empty c1) Hu). }
  rewrite He, Hu. reflexivity.
Qed.

Lemma promo_code_case_insensitive_witness :
  validatePromo 500 {| code := Some "flat500"; amount := Some 100%Q |}
                (promo_store "FLAT500" flat500) =
  validatePromo 500 {| code := Some "Flat500"; amount := Some 100%Q |}
                (promo_store "FLAT500" flat500).
Proof. apply promo_code_case_insensitive. reflexivity. Defined.

(** X10. A promo code stored with a lower-case letter can never be
    redeemed: every answer is the one the function would give if that row
    were not in the store. *)
Theorem lower_case_code_never_matches (now : Z) (r : PromoRequest)
    (db : Store) (key : string) :
  JS.toUpperCase key <> key ->
  response (validatePromo now r db) =
  response (validatePromo now r
              (with_promo_codes (delete key (promo_codes db)) db)).
Proof.
  intros Hkey.
  destruct (truthy_cases r) as [Hf | (c & a & Hc & Ha & Hts & Htn)].
  - now rewrite !(validatePromo_guard now r _ Hf).
  - rewrite !(validatePromo_lookup now r _ c a Hc Ha Hts Htn).
    unfold Db.select_active_promo. cbn [promo_codes with_promo_codes].
    assert (Hne : key <> JS.toUpperCase c).
    { intros ->. apply Hkey, toUpperCase_idempotent. }
    rewrite (lookup_delete_ne _ _ _ Hne).
    destruct (promo_codes db !! _) as [p |]; [| reflexivity].
    destruct (is_active p); [| reflexivity].
    destruct (out_of_window now p); [reflexivity |].
    destruct (below_minimum p a); reflexivity.
Qed.

Lemma lower_case_code_never_matches_witness :
  response (validatePromo 500 {| code := Some "save10"; amount := Some 100%Q |}
              (promo_store "save10" save10)) =
  response (validatePromo 500 {| code := Some "save10"; amount := Some 100%Q |}
              (with_promo_codes
                 (delete "save10" (promo_codes (promo_store "save10" save10)))
                 (promo_store "save10" save10))).
Proof. apply lower_case_code_never_matches. discriminate. Defined.

Example lower_case_code_is_invalid :
  response (validatePromo 500 {| code := Some "save10"; amount := Some 100%Q |}
              (promo_store "save10" save10))
  = mkResponse 200 (InvalidBody InvalidPromoCode).
Proof. vm_compute. reflexivity. Qed.

(** X11. With a code and an amount given, the verdict is
    [Invalid promo code] exactly when the code is non-empty, the amount is
    not zero, and no row carries the upper-cased code or the row that does
    is inactive; the dates, the minimum and the instant of the call play no
    part. *)
Theorem invalid_code_exactly (now : Z) (r : PromoRequest) (db : Store) c a :
  code r = Some c -> amount r = Some a ->
  (body (response (validatePromo now r db)) = InvalidBody InvalidPromoCode <->
   c <> "" /\ ~ (a == 0)%Q
   /\ (promo_codes db !! JS.toUpperCase c = None
       \/ exists p, promo_codes db !! JS.toUpperCase c = Some p
            /\ is_active p = false)).
Proof.
  intros Hc Ha.
  destruct (truthy_cases r) as [Hf | (c' & a' & Hc' & Ha' & Hts & Htn)].
  - rewrite (validatePromo_guard now r db Hf). cbn. split; [discriminate |].
    intros (Hne & Hnz & _). exfalso. rewrite Hc, Ha in Hf. cbn in Hf.
    destruct Hf as [Hf | Hf]; apply negb_false_iff in Hf.
    + apply String.eqb_eq in Hf. contradiction.
    + apply Qeq_bool_iff in Hf. contradiction.
  - rewrite Hc in Hc'. injection Hc' as <-. rewrite Ha in Ha'. injection Ha' as <-.
    assert (Hne : c <> "").
    { rewrite Hc in Hts. cbn in Hts. apply negb_true_iff in Hts.
      now apply String.eqb_neq. }
    assert (Hnz : ~ (a == 0)%Q).
    { rewrite Ha in Htn. cbn in Htn. apply negb_true_iff in Htn.
      intros H. apply Qeq_bool_iff in H. congruence. }
    rewrite (validatePromo_lookup now r db c a Hc Ha Hts Htn).
    unfold Db.select_active_promo.
    destruct (promo_codes db !! JS.toUpperCase c) as [p |] eqn:Hp.
    + destruct (is_active p) eqn:Hact.
      * destruct (out_of_window now p);
          [| destruct (below_minimum p a)]; cbn;
          (split; [discriminate |]);
          intros (_ & _ & [H | (p' & [= <-] & H)]); congruence.
      * cbn. split; [| reflexivity]. intros _. repeat split; eauto.
    + cbn. split; [| reflexivity]. intros _. repeat split; auto.
Qed.

Lemma invalid_code_exactly_witness :
  body (response (validatePromo 500
                    {| code := Some "nosuch"; amount := Some 100%Q |}
                    (promo_store "FLAT500" flat500)))
  = InvalidBody InvalidPromoCode <->
  "nosuch" <> "" /\ ~ (100 == 0)%Q
  /\ (promo_codes (promo_store "FLAT500" flat500) !! JS.toUpperCase "nosuch"
      = None
      \/ exists p,
           promo_codes (promo_store "FLAT500" flat500) !! JS.toUpperCase "nosuch"
           = Some p /\ is_active p = false).
Proof. apply invalid_code_exactly; reflexivity. Defined.

Lemma lt_num_spec (a b : Q) : JS.lt_num a b = true <-> (a < b)%Q.
Proof.
  unfold JS.lt_num. rewrite negb_true_iff. split.
  - intros H. apply Qnot_le_lt. intros Hle. apply Qle_bool_iff in Hle.
    congruence.
  - intros H. destruct (Qle_bool b a) eqn:E; [| reflexivity].
    apply Qle_bool_iff in E. exfalso. exact (Qlt_not_le _ _ H E).
Qed.

Lemma gt_num_spec (a b : Q) : JS.gt_num a b = true <-> (b < a)%Q.
Proof. apply lt_num_spec. Qed.

Lemma nonzero_spec (q : Q) : negb (Qeq_bool q 0) = true <-> ~ (q == 0)%Q.
Proof.
  rewrite negb_true_iff. split.
  - intros H Hq. apply Qeq_bool_iff in Hq. congruence.
  - intros H. destruct (Qeq_bool q 0) eqn:E; [| reflexivity].
    apply Qeq_bool_iff in E. contradiction.
Qed.

Lemma below_minimum_spec (p : PromoCode) (a m : Q) :
  below_minimum p a = Some m <->
  min_amount p = Some m /\ ~ (m == 0)%Q /\ (a < m)%Q.
Proof.
  unfold below_minimum. destruct (min_amount p) as [m' |]; cbn.
  - destruct (negb (Qeq_bool m' 0)) eqn:Hz; cbn.
    + destruct (JS.lt_num a m') eqn:Hlt; cbn.
      * apply nonzero_spec in Hz. apply lt_num_spec in Hlt.
        split; [intros [= <-]; auto | intros ([= <-] & _); auto].
      * split; [discriminate |]. intros ([= <-] & _ & H).
        apply lt_num_spec in H. congruence.
    + split; [discriminate |]. intros ([= <-] & H & _).
      apply nonzero_spec in H. congruence.
  - split; [discriminate | intros (H & _); discriminate].
Qed.

(** X12. For a non-empty code and a non-zero amount that resolve to an
    active record inside its validity window, the verdict is
    [Minimum purchase of $m required] exactly when the record sets the
    minimum [m], [m] is not zero, and the amount is below [m]; a minimum of
    zero is no minimum, and an amount equal to the minimum passes. *)
Theorem minimum_purchase_exactly (now : Z) (r : PromoRequest) (db : Store)
    c a p :
  code r = Some c -> c <> "" -> amount r = Some a -> ~ (a == 0)%Q ->
  Db.select_active_promo db (JS.toUpperCase c) = Some p ->
  out_of_window now p = false ->
  forall m,
    body (response (validatePromo now r db)) = InvalidBody (MinimumPurchase m)
    <-> min_amount p = Some m /\ ~ (m == 0)%Q /\ (a < m)%Q.
Proof.
  intros Hc Hne Ha Hnz Hp Hw m.
  rewrite (validatePromo_reaches now r db c a p) by assumption.
  rewrite Hw, <- below_minimum_spec.
  destruct (below_minimum p a) as [m' |]; cbn.
  - split; intros [= ->]; reflexivity.
  - split; discriminate.
Qed.

Lemma minimum_purchase_exactly_witness :
  body (response (validatePromo 500
                    {| code := Some "FLAT500"; amount := Some 150%Q |}
                    (promo_store "FLAT500" flat500_min200)))
  = InvalidBody (MinimumPurchase 200)
  <-> min_amount flat500_min200 = Some 200%Q /\ ~ (200 == 0)%Q
      /\ (150 < 200)%Q.
Proof.
  apply (minimum_purchase_exactly 500 _ _ "FLAT500" 150%Q flat500_min200);
    [reflexivity | discriminate | reflexivity | discriminate | reflexivity
     | reflexivity].
Defined.

(** X13. The validity window is closed at both ends: at every instant from
    [valid_from] to [valid_until], these two included (a missing
    [valid_from] counting as the epoch), the verdict is never
    [Promo code has expired]. *)
Theorem not_expired_inside_window (now : Z) (r : PromoRequest) (db : Store)
    c p :
  code r = Some c ->
  Db.select_active_promo db (JS.toUpperCase c) = Some p ->
  validFrom p <= now <= validUntil p ->
  body (response (validatePromo now r db)) <> InvalidBody PromoExpired.
Proof.
  intros Hc Hp [Hfrom Huntil].
  assert (Hw : out_of_window now p = false).
  { unfold out_of_window. apply orb_false_iff. split.
    - apply Z.ltb_ge. lia.
    - destruct (Z.gtb_spec now (validUntil p)); [lia | reflexivity]. }
  destruct (truthy_cases r) as [Hf | (c' & a & Hc' & Ha & Hts & Htn)].
  - rewrite (validatePromo_guard now r db Hf). discriminate.
  - rewrite Hc in Hc'. injection Hc' as <-.
    rewrite (validatePromo_lookup now r db c a Hc Ha Hts Htn), Hp, Hw.
    destruct (below_minimum p a); discriminate.
Qed.

Lemma not_expired_inside_window_witness :
  body (response (validatePromo 1000
                    {| code := Some "FLAT500"; amount := Some 100%Q |}
                    (promo_store "FLAT500" flat500)))
  <> InvalidBody PromoExpired.
Proof.
  apply (not_expired_inside_window 1000 _ _ "FLAT500" flat500);
    [reflexivity | reflexivity | cbn; lia].
Defined.

(** The discount and the final amount of a positive verdict. *)
Lemma valid_verdict_shape (now : Z) (r : PromoRequest) (db : Store) c a p d f :
  code r = Some c -> amount r = Some a ->
  Db.select_active_promo db (JS.toUpperCase c) = Some p ->
  body (response (validatePromo now r db)) = ValidBody d f ->
  d = JS.Math_min (raw_discount p a) a /\ f = (a - d)%Q.
Proof.
  intros Hc Ha Hp.
  destruct (truthy_cases r) as [Hf | (c' & a' & Hc' & Ha' & Hts & Htn)].
  - rewrite (validatePromo_guard now r db Hf). discriminate.
  - rewrite Hc in Hc'. injection Hc' as <-.
    rewrite Ha in Ha'. injection Ha' as <-.
    rewrite (validatePromo_lookup now r db c a Hc Ha Hts Htn), Hp.
    destruct (out_of_window now p); [discriminate |].
    destruct (below_minimum p a); [discriminate |].
    cbn. intros [= <- <-]. auto.
Qed.

Lemma Math_min_le_l (x y : Q) : (JS.Math_min x y <= x)%Q.
Proof. rewrite Math_min_Qmin. apply Q.le_min_l. Qed.

Lemma Math_min_le_r (x y : Q) : (JS.Math_min x y <= y)%Q.
Proof. rewrite Math_min_Qmin. apply Q.le_min_r. Qed.

Lemma Math_min_glb (x y z : Q) :
  (z <= x)%Q -> (z <= y)%Q -> (z <= JS.Math_min x y)%Q.
Proof. intros. rewrite Math_min_Qmin. now apply Q.min_glb. Qed.

(** X14. A percentage code with a non-zero [max_discount] never grants
    more than that cap; when [max_discount] is missing or zero there is no
    cap, and the discount is the smaller of [amount * value / 100] and the
    amount. *)
Theorem percentage_discount_cap (now : Z) (r : PromoRequest) (db : Store)
    c a p d f :
  code r = Some c -> amount r = Some a ->
  Db.select_active_promo db (JS.toUpperCase c) = Some p ->
  discount_type p = percentage ->
  body (response (validatePromo now r db)) = ValidBody d f ->
  (forall cap, max_discount p = Some cap -> ~ (cap == 0)%Q -> (d <= cap)%Q)
  /\ (max_discount p = None
      \/ (exists cap, max_discount p = Some cap /\ (cap == 0)%Q) ->
      (d == Qmin (a * discount_value p / 100) a)%Q).
Proof.
  intros Hc Ha Hp Hty Hb.
  destruct (valid_verdict_shape _ _ _ _ _ _ _ _ Hc Ha Hp Hb) as [-> _].
  unfold raw_discount. rewrite Hty. split.
  - intros cap Hcap Hnz. rewrite Hcap. cbn.
    apply nonzero_spec in Hnz. rewrite Hnz. cbn.
    eapply Qle_trans; [apply Math_min_le_l |].
    destruct (JS.gt_num _ cap) eqn:E; [apply Qle_refl |].
    destruct (Qlt_le_dec cap (a * discount_value p / 100)) as [H | H];
      [| exact H].
    apply gt_num_spec in H. congruence.
  - intros [Hnone | (cap & Hcap & Hz)].
    + rewrite Hnone. apply Math_min_Qmin.
    + rewrite Hcap. cbn.
      assert (E : Qeq_bool cap 0 = true) by now apply Qeq_bool_iff.
      rewrite E. cbn. apply Math_min_Qmin.
Qed.

Lemma percentage_discount_cap_witness :
  (5 <= 5)%Q.
Proof.
  destruct (percentage_discount_cap 500
              {| code := Some "SAVE10"; amount := Some 100%Q |}
              (promo_store "SAVE10" save10_capped) "SAVE10" 100%Q save10_capped
              5%Q (100 - 5)%Q) as [H _];
    [reflexivity | reflexivity | reflexivity | reflexivity | reflexivity |].
  apply (H 5%Q); [reflexivity | discriminate].
Defined.

(** X15. With a discount value that is not negative, an amount that is not
    negative and a cap, if any, that is not negative, a positive verdict
    grants a discount between 0 and the amount, and the final amount lies
    between 0 and the amount. *)
Theorem discount_within_amount (now : Z) (r : PromoRequest) (db : Store)
    c a p d f :
  code r = Some c -> amount r = Some a ->
  Db.select_active_promo db (JS.toUpperCase c) = Some p ->
  (0 <= discount_value p)%Q -> (0 <= a)%Q ->
  (forall cap, max_discount p = Some cap -> (0 <= cap)%Q) ->
  body (response (validatePromo now r db)) = ValidBody d f ->
  (0 <= d)%Q /\ (d <= a)%Q /\ (0 <= f)%Q /\ (f <= a)%Q.
Proof.
  intros Hc Ha Hp Hv Hpos Hcap Hb.
  destruct (valid_verdict_shape _ _ _ _ _ _ _ _ Hc Ha Hp Hb) as [-> ->].
  assert (Hraw : (0 <= raw_discount p a)%Q).
  { unfold raw_discount. destruct (discount_type p); [| exact Hv].
    assert (Hpct : (0 <= a * discount_value p / 100)%Q).
    { apply Qle_shift_div_l; [reflexivity |].
      apply Qle_trans with 0%Q; [discriminate |].
      now apply Qmult_le_0_compat. }
    destruct (max_discount p) as [cap |]; [| exact Hpct].
    destruct (_ && _); [now apply Hcap | exact Hpct]. }
  assert (H0 : (0 <= JS.Math_min (raw_discount p a) a)%Q)
    by now apply Math_min_glb.
  pose proof (Math_min_le_r (raw_discount p a) a) as Hle.
  repeat split; auto.
  - unfold Qminus. rewrite <- Qle_minus_iff. exact Hle.
  - apply Qle_minus_iff.
    assert (E : (a + - (a - JS.Math_min (raw_discount p a) a)
                 == JS.Math_min (raw_discount p a) a)%Q) by ring.
    rewrite E. exact H0.
Qed.

Lemma discount_within_amount_witness :
  (0 <= 5)%Q /\ (5 <= 100)%Q /\ (0 <= 100 - 5)%Q /\ (100 - 5 <= 100)%Q.
Proof.
  apply (discount_within_amount 500
           {| code := Some "SAVE10"; amount := Some 100%Q |}
           (promo_store "SAVE10" save10_capped) "SAVE10" 100%Q save10_capped);
    try reflexivity; try discriminate.
  intros cap [= <-]. discriminate.
Defined.

(* ------------------------------------------------------------------ *)
(** ** The client pages                                                 *)
(* ------------------------------------------------------------------ *)

Lemma details_step_invariant e st ev :
  details_invariant e st -> details_invariant e (Details.step st ev).
Proof.
  intros (He & Hn & Hs). destruct ev; cbn.
  - destruct (Z.eqb_spec (Details.available (snd slot)) 0) as [| Hne];
      [now repeat split |].
    repeat split; auto. cbn. intros ? [= <-]. exact Hne.
  - destruct (Z.leb_spec (Details.numGuests st) 1); [now repeat split |].
    repeat split; auto. cbn. lia.
  - destruct (match Details.selectedSlot st with
              | Some _ => _ | None => false end); [now repeat split |].
    repeat split; auto. cbn. lia.
Qed.

Lemma details_run_invariant e st es :
  details_invariant e st -> details_invariant e (Details.run st es).
Proof.
  revert st. induction es as [| ev es IH]; intros st H; [exact H |].
  cbn. apply IH. now apply details_step_invariant.
Qed.


(** X16. Whatever is clicked on the details page, the state handed to the
    checkout names the experience that was loaded, a slot that was not full
    when it was chosen, at least one guest, and a base amount equal to the
    price per guest times the number of guests. *)
Theorem checkout_data_from_details (e : option ExperienceData)
    (es : list Details.Event) (data : CheckoutData) :
  Details.handleBooking (Details.run (Details.init e) es) = Some data ->
  e = Some (cd_experience data)
  /\ 1 <= cd_numGuests data
  /\ cd_baseAmount data
     = (ed_price (cd_experience data) * inject_Z (cd_numGuests data))%Q
  /\ Details.available (snd (cd_slot data)) <> 0.
Proof.
  assert (Hinit : details_invariant e (Details.init e)).
  { repeat split; cbn; [lia | discriminate]. }
  destruct (details_run_invariant e _ es Hinit) as (He & Hn & Hs).
  unfold Details.handleBooking.
  destruct (Details.selectedSlot _) as [slot |] eqn:Hslot; [| discriminate].
  destruct (Details.experience _) as [x |] eqn:Hx; [| discriminate].
  intros [= <-]. cbn. repeat split; auto.
Qed.

Lemma checkout_data_from_details_witness :
  Some sample_experience = Some (cd_experience sample_checkout_data)
  /\ 1 <= cd_numGuests sample_checkout_data
  /\ cd_baseAmount sample_checkout_data
     = (ed_price (cd_experience sample_checkout_data)
        * inject_Z (cd_numGuests sample_checkout_data))%Q
  /\ Details.available (snd (cd_slot sample_checkout_data)) <> 0.
Proof.
  apply (checkout_data_from_details (Some sample_experience)
           [Details.ClickPlus; Details.ClickSlot ("slot-1", sample_slot);
            Details.ClickMinus]).
  reflexivity.
Defined.

(** X17. Once a slot is selected with a guest count within what is left,
    plus and minus keep the count between 1 and what is left. *)
Theorem guests_within_selected_slot (st : Details.State)
    (es : list Details.Event) (slot : string * Slot) :
  Details.selectedSlot st = Some slot ->
  1 <= Details.numGuests st <= Details.available (snd slot) ->
  Forall (fun ev => ev = Details.ClickPlus \/ ev = Details.ClickMinus) es ->
  Details.selectedSlot (Details.run st es) = Some slot
  /\ 1 <= Details.numGuests (Details.run st es)
       <= Details.available (snd slot).
Proof.
  revert st. induction es as [| ev es IH]; intros st Hs Hn Hall; [now split |].
  apply Forall_cons_1 in Hall as [Hev Hall]. cbn. apply IH; auto.
  - destruct Hev as [-> | ->]; cbn.
    + rewrite Hs. unfold Details.availableSlots. rewrite Hs.
      destruct (Z.geb_spec (Details.numGuests st)
                  (Details.available (snd slot))); cbn; auto.
    + destruct (Z.leb_spec (Details.numGuests st) 1); cbn; auto.
  - destruct Hev as [-> | ->]; cbn.
    + rewrite Hs. unfold Details.availableSlots. rewrite Hs.
      destruct (Z.geb_spec (Details.numGuests st)
                  (Details.available (snd slot))); cbn; lia.
    + destruct (Z.leb_spec (Details.numGuests st) 1); cbn; lia.
Qed.

Lemma guests_within_selected_slot_witness :
  Details.selectedSlot
    (Details.run (Details.mkState None (Some ("slot-1", sample_slot)) 1)
       [Details.ClickPlus; Details.ClickPlus; Details.ClickMinus])
  = Some ("slot-1", sample_slot)
  /\ 1 <= Details.numGuests
            (Details.run (Details.mkState None (Some ("slot-1", sample_slot)) 1)
               [Details.ClickPlus; Details.ClickPlus; Details.ClickMinus])
       <= Details.available (snd ("slot-1", sample_slot)).
Proof.
  apply guests_within_selected_slot;
    [reflexivity | unfold Details.available; cbn; lia |].
  repeat (apply List.Forall_cons;
          [first [left; reflexivity | right; reflexivity] |]).
  apply List.Forall_nil.
Defined.

(** The count is not brought back when another slot is chosen: five
    guests picked before any slot is selected stay five after the slot
    with one seat left is selected. *)
Example guests_not_clamped_on_selection :
  Details.handleBooking
    (Details.run (Details.init (Some sample_experience))
       [Details.ClickPlus; Details.ClickPlus; Details.ClickPlus;
        Details.ClickPlus; Details.ClickSlot ("slot-1", sample_slot)])
  = Some (mkCheckoutData sample_experience ("slot-1", sample_slot) 5
                         (149 * inject_Z 5)).
Proof. reflexivity. Qed.






Lemma trim_empty : Text.trim "" = "".
Proof. reflexivity. Qed.

(** [validateForm] accepts exactly the forms whose three fields are not
    blank and whose email and phone match their patterns. *)
Lemma validateForm_spec (st : Checkout.State) :
  Checkout.validateForm st = true <->
  Text.trim (Checkout.name (Checkout.formData st)) <> ""
  /\ Text.trim (Checkout.email (Checkout.formData st)) <> ""
  /\ Text.test Checkout.email_pattern (Checkout.email (Checkout.formData st))
     = true
  /\ Text.trim (Checkout.phone (Checkout.formData st)) <> ""
  /\ Text.test Checkout.phone_pattern (Checkout.phone (Checkout.formData st))
     = true.
Proof.
  unfold Checkout.validateForm, Checkout.form_errors, Checkout.no_errors.
  cbn [Checkout.err_name Checkout.err_email Checkout.err_phone
       JS.truthy_string].
  destruct (String.eqb_spec (Text.trim (Checkout.name (Checkout.formData st))) "");
  destruct (String.eqb_spec (Text.trim (Checkout.email (Checkout.formData st))) "");
  destruct (String.eqb_spec (Text.trim (Checkout.phone (Checkout.formData st))) "");
  destruct (Text.test Checkout.email_pattern _);
  destruct (Text.test Checkout.phone_pattern _); cbn;
    (split; [try discriminate; intros _; repeat split; auto
            | intros (? & ? & ? & ? & ?); congruence]).
Qed.

(** X19. A form the checkout page accepts passes the required-field check
    of the booking function: with non-empty experience and slot ids and a
    guest count that is not zero, the request built from an accepted form
    is never answered [Missing required fields]. *)
Theorem accepted_form_has_required_fields (data : CheckoutData)
    (st : Checkout.State) :
  Checkout.validateForm st = true ->
  ed_id (cd_experience data) <> "" -> fst (cd_slot data) <> "" ->
  cd_numGuests data <> 0 ->
  missing_required (Checkout.booking_request data st) = false.
Proof.
  intros Hv Hid Hslot Hn.
  apply validateForm_spec in Hv as (Hname & Hmail & _ & Hphone & _).
  assert (Hne : forall s, s <> "" -> JS.truthy_string (Some s) = true).
  { intros s H. cbn. apply negb_true_iff. now apply String.eqb_neq. }
  assert (Htrim : forall s, Text.trim s <> "" -> s <> "").
  { intros s H ->. now apply H. }
  unfold missing_required, Checkout.booking_request. cbn [experienceId slotId
    customerName customerEmail customerPhone numGuests].
  rewrite !Hne by auto. cbn.
  apply negb_false_iff, negb_true_iff. now apply Z.eqb_neq.
Qed.

Lemma accepted_form_has_required_fields_witness :
  missing_required
    (Checkout.booking_request sample_checkout_data
       (Checkout.run (fun _ => "") sample_checkout_data Checkout.init
          fill_sample_form)) = false.
Proof.
  apply accepted_form_has_required_fields;
    [vm_compute; reflexivity | discriminate | discriminate | discriminate].
Defined.





(** The code on display can be replaced while its validation is under
    way: the discount of [SAVE10] is then applied under the code
    [FLAT100], and that is what the booking function stores. *)
Example discount_of_an_overtaken_code :
  Checkout.promoCode
    (Checkout.run (fun _ => "") sample_checkout_data Checkout.init
       overtaken_events) = "FLAT100"
  /\ Checkout.discount
       (Checkout.run (fun _ => "") sample_checkout_data Checkout.init
          overtaken_events) = save10_discount
  /\ fst (Checkout.handleSubmit sample_random save10_sample_store
            sample_checkout_data
            (Checkout.run (fun _ => "") sample_checkout_data Checkout.init
               overtaken_events))
     = Checkout.ResultSuccess
         (Some (stored_booking (149 * inject_Z 1) save10_discount
                  (149 * inject_Z 1 - save10_discount) (Some "FLAT100"))).
Proof. vm_compute. repeat split. Qed.

(* ------------------------------------------------------------------ *)
(** ** The experiences function                                         *)
(* ------------------------------------------------------------------ *)

Lemma prefix_app (p s : string) : String.prefix p (p +:+ s) = true.
Proof.
  induction p as [| c p IH]; [now destruct s |].
  rewrite append_cons. cbn [String.prefix].
  destruct (ascii_dec c c); [exact IH | contradiction].
Qed.

Lemma drop_app (p s : string) : Url.drop (String.length p) (p +:+ s) = s.
Proof.
  induction p as [| c p IH]; [reflexivity |].
  rewrite append_cons. cbn [Url.drop String.length]. exact IH.
Qed.

Lemma replace_unfold (pat rep s : string) :
  Url.replace pat rep s =
  if String.prefix pat s then rep +:+ Url.drop (String.length pat) s
  else match s with
       | EmptyString => EmptyString
       | String c r => String c (Url.replace pat rep r)
       end.
Proof. destruct s; reflexivity. Qed.

(** The prefix is stripped when the path starts with it. *)
Lemma replace_prefix (p s : string) : Url.replace p "" (p +:+ s) = s.
Proof. rewrite replace_unfold, prefix_app, drop_app. reflexivity. Qed.

Lemma split_not_nil (sep : ascii) (s : string) : Url.split sep s <> [].
Proof.
  destruct s as [| c r]; cbn; [discriminate |].
  destruct (Ascii.eqb c sep); [discriminate |].
  destruct (Url.split sep r); discriminate.
Qed.

(** Splitting a segment followed by the rest. *)
Lemma split_segment (x rest : string) :
  (forall c, In c (list_ascii_of_string x) -> c <> "/"%char) ->
  Url.split "/" (x +:+ String "/" rest) = x :: Url.split "/" rest.
Proof.
  induction x as [| c x IH]; intros Hx.
  - reflexivity.
  - rewrite append_cons. cbn [Url.split].
    assert (Hc : Ascii.eqb c "/" = false).
    { apply Ascii.eqb_neq. apply Hx. now left. }
    rewrite Hc, IH; [reflexivity |].
    intros d Hd. apply Hx. now right.
Qed.

Lemma split_last_segment (x : string) :
  (forall c, In c (list_ascii_of_string x) -> c <> "/"%char) ->
  Url.split "/" x = [x].
Proof.
  induction x as [| c x IH]; intros Hx; [reflexivity |].
  cbn [Url.split].
  assert (Hc : Ascii.eqb c "/" = false).
  { apply Ascii.eqb_neq. apply Hx. now left. }
  rewrite Hc, IH; [reflexivity |].
  intros d Hd. apply Hx. now right.
Qed.

Lemma filter_Boolean_segment (x : string) (xs : list string) :
  x <> "" -> Url.filter_Boolean (x :: xs) = x :: Url.filter_Boolean xs.
Proof.
  intros Hx. unfold Url.filter_Boolean. cbn.
  assert (E : String.eqb x "" = false) by now apply String.eqb_neq.
  now rewrite E.
Qed.

Lemma filter_Boolean_empty (xs : list string) :
  Url.filter_Boolean ("" :: xs) = Url.filter_Boolean xs.
Proof. reflexivity. Qed.

Lemma split_slash (r : string) :
  Url.split "/" (String "/" r) = "" :: Url.split "/" r.
Proof. reflexivity. Qed.

(** A trailing slash adds one empty piece. *)
Lemma split_trailing_slash (s : string) :
  Url.split "/" (s +:+ "/") = (Url.split "/" s ++ [""])%list.
Proof.
  induction s as [| c s IH]; [reflexivity |].
  rewrite append_cons. cbn [Url.split]. rewrite IH.
  destruct (Ascii.eqb c "/"); [reflexivity |].
  destruct (Url.split "/" s) as [| h t] eqn:E; [| reflexivity].
  now apply split_not_nil in E.
Qed.

Lemma filter_Boolean_app (xs ys : list string) :
  Url.filter_Boolean (xs ++ ys)
  = (Url.filter_Boolean xs ++ Url.filter_Boolean ys)%list.
Proof. apply List.filter_app. Qed.

Lemma parts_of_slashed (xs : list string) :
  Forall is_segment xs ->
  Url.filter_Boolean (Url.split "/" (slashed xs)) = xs.
Proof.
  induction 1 as [| x xs [Hne Hx] _ IH]; [reflexivity |].
  change (slashed (x :: xs)) with (String "/" (x +:+ slashed xs)).
  rewrite split_slash, filter_Boolean_empty.
  destruct xs as [| y ys].
  - change (slashed []) with "". rewrite append_empty_r.
    rewrite split_last_segment by exact Hx.
    now rewrite filter_Boolean_segment.
  - change (slashed (y :: ys)) with (String "/" (y +:+ slashed ys)) in *.
    rewrite split_segment by exact Hx.
    rewrite filter_Boolean_segment by exact Hne.
    rewrite split_slash, filter_Boolean_empty in IH. now rewrite IH.
Qed.

(** X21. Path parsing round trip: for segments that are non-empty and
    free of slashes, the path made of the prefix [/functions/v1] and the
    segments behind one slash each is parsed back into exactly those
    segments, with or without a trailing slash. *)
Theorem path_parts_round_trip (xs : list string) :
  Forall is_segment xs ->
  Url.parts ("/functions/v1" +:+ slashed xs) = xs
  /\ Url.parts ("/functions/v1" +:+ slashed xs +:+ "/") = xs.
Proof.
  intros Hxs. unfold Url.parts. rewrite !replace_prefix. split.
  - now apply parts_of_slashed.
  - rewrite split_trailing_slash, filter_Boolean_app.
    rewrite parts_of_slashed by exact Hxs. apply app_nil_r.
Qed.

(** X22. The routing table of the experiences function, on paths made of
    the prefix and slash-free, non-empty segments: a [GET] of the one
    segment [experiences] lists the experiences, a [GET] of [experiences]
    followed by one more segment looks that segment up as an id, and every
    other [GET] is answered 404 [Not found] without a query. *)
Theorem experiences_routing {Row SlotRow Err : Type}
    (q : Catalog Row SlotRow Err) (today : string) (xs : list string) :
  Forall is_segment xs ->
  experiences_handler q today (OtherMethod "GET")
                      ("/functions/v1" +:+ slashed xs) =
  match xs with
  | [p0] =>
    if String.eqb p0 "experiences" then experience_list q
    else mkCatalogOutcome 404 (CatalogError "Not found") []
  | [p0; id] =>
    if String.eqb p0 "experiences" then experience_details q today id
    else mkCatalogOutcome 404 (CatalogError "Not found") []
  | _ => mkCatalogOutcome 404 (CatalogError "Not found") []
  end.
Proof.
  intros Hxs. unfold experiences_handler, Url.parts.
  rewrite replace_prefix, parts_of_slashed by exact Hxs.
  destruct xs as [| p0 [| p1 [| p2 rest]]]; reflexivity.
Qed.

Lemma experiences_routing_witness :
  experiences_handler sample_catalog "2026-11-03" (OtherMethod "GET")
                      ("/functions/v1" +:+ slashed ["experiences"; "exp-1"]) =
  if String.eqb "experiences" "experiences"
  then experience_details sample_catalog "2026-11-03" "exp-1"
  else mkCatalogOutcome 404 (CatalogError "Not found") [].
Proof.
  apply (experiences_routing sample_catalog "2026-11-03"
           ["experiences"; "exp-1"]).
  repeat (apply List.Forall_cons;
          [split; [discriminate | intros c Hc; vm_compute in Hc;
                   repeat (destruct Hc as [<- | Hc]; [discriminate |]);
                   destruct Hc] |]).
  apply List.Forall_nil.
Defined.

Lemma path_parts_round_trip_witness :
  Url.parts ("/functions/v1" +:+ slashed ["experiences"; "exp-1"])
  = ["experiences"; "exp-1"]
  /\ Url.parts ("/functions/v1" +:+ slashed ["experiences"; "exp-1"] +:+ "/")
     = ["experiences"; "exp-1"].
Proof.
  apply path_parts_round_trip.
  repeat (apply List.Forall_cons;
          [split; [discriminate | intros c Hc; vm_compute in Hc;
                   repeat (destruct Hc as [<- | Hc]; [discriminate |]);
                   destruct Hc] |]).
  apply List.Forall_nil.
Defined.

(** Paths as the platform delivers them, and some edges: an id the store
    does not hold is answered 500, not 404; a [POST] is answered 404, not
    405; the prefix is stripped wherever it first occurs. *)
Example experiences_examples :
  catalog_queries
    (experiences_handler sample_catalog "2026-11-03" (OtherMethod "GET")
       "/functions/v1/experiences") = [QueryExperiences]
  /\ catalog_queries
       (experiences_handler sample_catalog "2026-11-03" (OtherMethod "GET")
          "/experiences/exp-1")
     = [QueryExperience "exp-1"; QuerySlots "exp-1" "2026-11-03"]
  /\ catalog_status
       (experiences_handler sample_catalog "2026-11-03" (OtherMethod "GET")
          "/functions/v1/experiences/nope") = 500
  /\ experiences_handler sample_catalog "2026-11-03" POST
       "/functions/v1/experiences"
     = mkCatalogOutcome 404 (CatalogError "Not found") []
  /\ catalog_queries
       (experiences_handler sample_catalog "2026-11-03" (OtherMethod "GET")
          "/experiences/functions/v1") = [QueryExperiences].
Proof. vm_compute. repeat split. Qed.

(* ------------------------------------------------------------------ *)
(** ** The patterns of the checkout form                                *)
(* ------------------------------------------------------------------ *)

Lemma append_empty_inv (s1 s2 : string) :
  s1 +:+ s2 = "" -> s1 = "" /\ s2 = "".
Proof. destruct s1; [auto | discriminate]. Qed.

Lemma nullable_Lang (r : Text.Regex) : Text.nullable r = true <-> Lang r "".
Proof.
  split.
  - induction r; cbn; intros H; try discriminate.
    + constructor.
    + apply andb_true_iff in H as [H1 H2].
      change "" with ("" +:+ ""). constructor; auto.
    + apply orb_true_iff in H as [H | H];
        [apply Lang_alt_l | apply Lang_alt_r]; auto.
    + constructor.
  - intros H. remember "" as s eqn:Hs.
    induction H; cbn; try reflexivity; try discriminate.
    + apply append_empty_inv in Hs as [-> ->].
      rewrite IHLang1, IHLang2; auto.
    + rewrite IHLang; auto.
    + rewrite IHLang; auto. apply orb_true_r.
Qed.

Lemma deriv_Lang (c : ascii) (r : Text.Regex) (w : string) :
  Lang (Text.deriv c r) w <-> Lang r (String c w).
Proof.
  split.
  - revert w. induction r; cbn; intros w H.
    + inversion H.
    + inversion H.
    + destruct (p c) eqn:Hp; inversion H; subst. now constructor.
    + destruct (Text.nullable r1) eqn:Hn.
      * inversion H as [| | | ? ? ? H1 | ? ? ? H1 | |]; subst.
        -- inversion H1; subst.
           change (String c (s1 +:+ s2)) with (String c s1 +:+ s2).
           constructor; auto.
        -- change (String c w) with ("" +:+ String c w).
           constructor; [now apply nullable_Lang | auto].
      * inversion H; subst.
        change (String c (s1 +:+ s2)) with (String c s1 +:+ s2).
        constructor; auto.
    + inversion H; subst; [apply Lang_alt_l | apply Lang_alt_r]; auto.
    + inversion H; subst.
      change (String c (s1 +:+ s2)) with (String c s1 +:+ s2).
      constructor; auto.
  - intros H. remember (String c w) as cw eqn:Hcw. revert w Hcw.
    induction H; intros w Hcw; try discriminate.
    + injection Hcw as -> <-. cbn. rewrite H. constructor.
    + cbn. destruct s1 as [| c1 s1'].
      * change ("" +:+ s2) with s2 in Hcw. subst s2.
        assert (Hn : Text.nullable r1 = true) by now apply nullable_Lang.
        rewrite Hn. apply Lang_alt_r. now apply IHLang2.
      * rewrite append_cons in Hcw. injection Hcw as -> <-.
        destruct (Text.nullable r1);
          [apply Lang_alt_l |]; constructor; auto.
    + cbn. apply Lang_alt_l. auto.
    + cbn. apply Lang_alt_r. auto.
    + cbn. destruct s1 as [| c1 s1'].
      * change ("" +:+ s2) with s2 in Hcw. now apply IHLang2.
      * rewrite append_cons in Hcw. injection Hcw as -> <-.
        constructor; auto.
Qed.

(** [test] decides the language. *)
Lemma test_Lang (r : Text.Regex) (s : string) :
  Text.test r s = true <-> Lang r s.
Proof.
  revert r. induction s as [| c s IH]; intros r; cbn.
  - apply nullable_Lang.
  - rewrite IH. apply deriv_Lang.
Qed.

Lemma Lang_seq_iff (r1 r2 : Text.Regex) (s : string) :
  Lang (Text.Seq r1 r2) s <->
  exists s1 s2, s = s1 +:+ s2 /\ Lang r1 s1 /\ Lang r2 s2.
Proof.
  split.
  - intros H. inversion H; subst. eauto.
  - intros (s1 & s2 & -> & H1 & H2). now constructor.
Qed.

Lemma Lang_class_iff (p : ascii -> bool) (s : string) :
  Lang (Text.Class p) s <-> exists c, s = String c "" /\ p c = true.
Proof.
  split.
  - intros H. inversion H; subst. eauto.
  - intros (c & -> & H). now constructor.
Qed.

Lemma Lang_chr_iff (c : ascii) (s : string) :
  Lang (Text.Chr c) s <-> s = String c "".
Proof.
  unfold Text.Chr. rewrite Lang_class_iff. split.
  - intros (d & -> & H). apply Ascii.eqb_eq in H. now subst.
  - intros ->. exists c. split; [reflexivity | apply Ascii.eqb_refl].
Qed.

Lemma all_chars_cons (p : ascii -> bool) (c : ascii) (s : string) :
  all_chars p (String c s) = p c && all_chars p s.
Proof. reflexivity. Qed.

Lemma all_chars_app (p : ascii -> bool) (s t : string) :
  all_chars p (s +:+ t) = all_chars p s && all_chars p t.
Proof.
  induction s as [| c s IH]; [reflexivity |].
  rewrite append_cons, !all_chars_cons, IH. apply andb_assoc.
Qed.

Lemma length_app_string (s t : string) :
  String.length (s +:+ t) = (String.length s + String.length t)%nat.
Proof.
  induction s as [| c s IH]; [reflexivity |].
  rewrite append_cons. cbn. now rewrite IH.
Qed.

Lemma Lang_star_class (p : ascii -> bool) (s : string) :
  Lang (Text.Star (Text.Class p)) s <-> all_chars p s = true.
Proof.
  split.
  - intros H. remember (Text.Star (Text.Class p)) as r eqn:Hr.
    induction H; try discriminate; [reflexivity |].
    injection Hr as ->. inversion H; subst.
    change (String c "" +:+ s2) with (String c s2).
    rewrite all_chars_cons, IHLang2 by reflexivity.
    now apply andb_true_iff.
  - induction s as [| c s IH]; intros H; [constructor |].
    rewrite all_chars_cons in H. apply andb_true_iff in H as [Hc Hs].
    change (String c s) with (String c "" +:+ s).
    constructor; [now constructor | auto].
Qed.

Lemma Lang_plus_class (p : ascii -> bool) (s : string) :
  Lang (Text.Plus (Text.Class p)) s <-> s <> "" /\ all_chars p s = true.
Proof.
  unfold Text.Plus. rewrite Lang_seq_iff. split.
  - intros (s1 & s2 & -> & H1 & H2).
    apply Lang_class_iff in H1 as (c & -> & Hc).
    apply Lang_star_class in H2.
    change (String c "" +:+ s2) with (String c s2). split; [discriminate |].
    rewrite all_chars_cons, Hc, H2. reflexivity.
  - intros [Hne H]. destruct s as [| c s]; [contradiction |].
    rewrite all_chars_cons in H. apply andb_true_iff in H as [Hc Hs].
    exists (String c ""), s. repeat split.
    + now constructor.
    + now apply Lang_star_class.
Qed.

Lemma Lang_atleast_class (n : nat) (p : ascii -> bool) (s : string) :
  Lang (Text.AtLeast n (Text.Class p)) s <->
  (n <= String.length s)%nat /\ all_chars p s = true.
Proof.
  revert s. induction n as [| n IH]; intros s; cbn [Text.AtLeast].
  - rewrite Lang_star_class. split; [intros H; split; [lia | auto] | tauto].
  - rewrite Lang_seq_iff. split.
    + intros (s1 & s2 & -> & H1 & H2).
      apply Lang_class_iff in H1 as (c & -> & Hc). apply IH in H2 as [Hl Hs].
      change (String c "" +:+ s2) with (String c s2).
      rewrite all_chars_cons, Hc, Hs. cbn. split; [lia | reflexivity].
    + intros [Hl H]. destruct s as [| c s]; [cbn in Hl; lia |].
      rewrite all_chars_cons in H. apply andb_true_iff in H as [Hc Hs].
      exists (String c ""), s. repeat split.
      * now constructor.
      * apply IH. cbn in Hl. split; [lia | auto].
Qed.

Lemma email_pattern_shape (s : string) :
  Text.test Checkout.email_pattern s = true <-> email_shape s.
Proof.
  rewrite test_Lang. unfold Checkout.email_pattern, email_shape.
  change (fun c => negb (Text.is_space c || Ascii.eqb c "@")) with email_char.
  rewrite Lang_seq_iff. split.
  - intros (l & rest & -> & Hl & Hrest).
    apply Lang_plus_class in Hl as [Hl1 Hl2].
    apply Lang_seq_iff in Hrest as (at_ & rest2 & -> & Hat & Hrest2).
    apply Lang_chr_iff in Hat as ->.
    apply Lang_seq_iff in Hrest2 as (d & rest3 & -> & Hd & Hrest3).
    apply Lang_plus_class in Hd as [Hd1 Hd2].
    apply Lang_seq_iff in Hrest3 as (dot & t & -> & Hdot & Ht).
    apply Lang_chr_iff in Hdot as ->.
    apply Lang_plus_class in Ht as [Ht1 Ht2].
    exists l, d, t. repeat split; auto.
  - intros (l & d & t & -> & Hl & Hd & Ht & Hal & Had & Hat).
    exists l, (String "@" (d +:+ String "." t)). split; [reflexivity |].
    split; [now apply Lang_plus_class |].
    apply Lang_seq_iff. exists (String "@" ""), (d +:+ String "." t).
    split; [reflexivity |]. split; [now apply Lang_chr_iff |].
    apply Lang_seq_iff. exists d, (String "." t).
    split; [reflexivity |]. split; [now apply Lang_plus_class |].
    apply Lang_seq_iff. exists (String "." ""), t.
    split; [reflexivity |]. split; [now apply Lang_chr_iff |].
    now apply Lang_plus_class.
Qed.

Lemma phone_pattern_shape (s : string) :
  Text.test Checkout.phone_pattern s = true <-> phone_shape s.
Proof.
  rewrite test_Lang. unfold Checkout.phone_pattern, phone_shape.
  change (fun c => Text.is_digit c || Text.is_space c || Ascii.eqb c "-"
                   || Ascii.eqb c "(" || Ascii.eqb c ")") with phone_char.
  rewrite Lang_seq_iff. split.
  - intros (plus & digits & -> & Hplus & Hd).
    apply Lang_atleast_class in Hd as [Hlen Hall].
    exists digits. split; [| auto].
    unfold Text.Opt in Hplus. inversion Hplus as [| | | ? ? ? H | ? ? ? H | |];
      subst.
    + inversion H; subst. now left.
    + apply Lang_chr_iff in H as ->. now right.
  - intros (digits & Hs & Hlen & Hall).
    assert (Hd : Lang (Text.AtLeast 10 (Text.Class phone_char)) digits)
      by now apply Lang_atleast_class.
    destruct Hs as [-> | ->].
    + exists "", digits. repeat split; auto.
      apply Lang_alt_l. constructor.
    + exists (String "+" ""), digits. repeat split; auto.
      apply Lang_alt_r. now apply Lang_chr_iff.
Qed.

Lemma trimStart_blank (s : string) : Text.trimStart s = "" <-> blank s.
Proof.
  unfold blank. induction s as [| c s IH]; [cbn; tauto |].
  cbn [Text.trimStart]. rewrite all_chars_cons.
  destruct (Text.is_space c); cbn [andb]; [exact IH |].
  split; discriminate.
Qed.

Lemma trimStart_head (s : string) :
  Text.trimStart s = "" \/
  exists c r, Text.trimStart s = String c r /\ Text.is_space c = false.
Proof.
  induction s as [| c s IH]; cbn; [now left |].
  destruct (Text.is_space c) eqn:E; [exact IH | right; eauto].
Qed.

Lemma reverse_empty (s : string) : Text.reverse s = "" <-> s = "".
Proof.
  unfold Text.reverse. split; [| now intros ->].
  intros H. apply (f_equal list_ascii_of_string) in H.
  rewrite list_ascii_of_string_of_list_ascii in H. cbn in H.
  apply (f_equal (@List.rev ascii)) in H. rewrite List.rev_involutive in H.
  cbn in H. apply (f_equal string_of_list_ascii) in H.
  now rewrite string_of_list_ascii_of_string in H.
Qed.

Lemma all_chars_reverse (p : ascii -> bool) (s : string) :
  all_chars p (Text.reverse s) = all_chars p s.
Proof.
  unfold all_chars, Text.reverse.
  rewrite list_ascii_of_string_of_list_ascii.
  destruct (forallb p (list_ascii_of_string s)) eqn:E.
  - rewrite forallb_forall in *. intros x Hx. apply E. now apply in_rev.
  - destruct (forallb p (List.rev _)) eqn:E'; [| reflexivity].
    rewrite forallb_forall in E'.
    assert (forallb p (list_ascii_of_string s) = true); [| congruence].
    apply forallb_forall. intros x Hx. apply E'. now apply in_rev in Hx.
Qed.

(** [s.trim()] is empty exactly when [s] is blank. *)
Lemma trim_blank (s : string) : Text.trim s = "" <-> blank s.
Proof.
  unfold Text.trim. rewrite reverse_empty, trimStart_blank.
  unfold blank. rewrite all_chars_reverse. split.
  - intros H. destruct (trimStart_head s) as [E | (c & r & E & Hc)].
    + now apply trimStart_blank.
    + rewrite E, all_chars_cons, Hc in H. discriminate.
  - intros H. apply trimStart_blank in H. now rewrite H.
Qed.

(** X23. What the checkout form accepts: [validateForm] passes exactly
    when the name is not blank, the email is [local@domain.tld] with three
    non-empty parts free of white space and of [@], and the phone is not
    blank and is an optional [+] followed by at least ten characters, each
    a digit, white space, a hyphen or a parenthesis. *)
Theorem validateForm_accepts_exactly (st : Checkout.State) :
  Checkout.validateForm st = true <->
  ~ blank (Checkout.name (Checkout.formData st))
  /\ email_shape (Checkout.email (Checkout.formData st))
  /\ ~ blank (Checkout.phone (Checkout.formData st))
  /\ phone_shape (Checkout.phone (Checkout.formData st)).
Proof.
  rewrite validateForm_spec, !trim_blank, email_pattern_shape,
    phone_pattern_shape.
  split; [tauto |].
  intros (Hn & He & Hp & Hs). repeat split; auto.
  destruct He as (l & d & t & -> & _ & _ & _ & _ & _ & _).
  unfold blank. rewrite all_chars_app, all_chars_cons. cbn [Text.is_space].
  intros H. apply andb_true_iff in H as [_ H]. discriminate.
Qed.

Example forms_accepted_and_rejected :
  Checkout.validateForm
    (Checkout.run (fun _ => "") sample_checkout_data Checkout.init
       fill_sample_form) = true
  /\ Text.test Checkout.email_pattern "ada@example" = false
  /\ Text.test Checkout.email_pattern "ada lovelace@example.org" = false
  /\ Text.test Checkout.phone_pattern "555-1234" = false
  /\ Text.test Checkout.phone_pattern "(555) 123-4567" = true
  /\ Checkout.form_errors (Checkout.mkFormData " " "a@b.c" "          ")
     = Checkout.mkErrors (Some "Full name is required") None
                         (Some "Phone number is required").
Proof. vm_compute. repeat split. Qed.

(* ------------------------------------------------------------------ *)
(** ** Grouping the slots by date                                       *)
(* ------------------------------------------------------------------ *)

Lemma group_of_push (slot : string * Slot) (grouped : Grouped) (date : string) :
  group_of date (push_slot slot grouped) =
  if String.eqb (slot_date (snd slot)) date
  then Some (match group_of date grouped with
             | Some g => g ++ [slot]
             | None => [slot]
             end)%list
  else group_of date grouped.
Proof.
  induction grouped as [| [d g] rest IH]; cbn.
  - destruct (String.eqb _ date); reflexivity.
  - destruct (String.eqb_spec d (slot_date (snd slot))) as [-> | Hne]; cbn.
    + destruct (String.eqb _ date); reflexivity.
    + destruct (String.eqb_spec d date) as [-> | Hne'].
      * assert (E : String.eqb (slot_date (snd slot)) date = false).
        { apply String.eqb_neq. congruence. }
        now rewrite E.
      * exact IH.
Qed.

Lemma keys_push (slot : string * Slot) (grouped : Grouped) :
  map fst (push_slot slot grouped) =
  if existsb (String.eqb (slot_date (snd slot))) (map fst grouped)
  then map fst grouped
  else (map fst grouped ++ [slot_date (snd slot)])%list.
Proof.
  induction grouped as [| [d g] rest IH]; cbn; [reflexivity |].
  rewrite (String.eqb_sym (slot_date (snd slot)) d).
  destruct (String.eqb d (slot_date (snd slot))); cbn; [reflexivity |].
  rewrite IH. destruct (existsb _ _); reflexivity.
Qed.

Lemma groupSlotsByDate_snoc (slots : list (string * Slot)) slot :
  groupSlotsByDate (slots ++ [slot])
  = push_slot slot (groupSlotsByDate slots).
Proof. unfold groupSlotsByDate. now rewrite fold_left_app. Qed.

Lemma slots_on_snoc (date : string) (slots : list (string * Slot)) slot :
  slots_on date (slots ++ [slot]) =
  (slots_on date slots
   ++ if String.eqb (slot_date (snd slot)) date then [slot] else [])%list.
Proof. unfold slots_on. rewrite List.filter_app. reflexivity. Qed.

(** X24. [groupSlotsByDate] files every slot under its own date, once
    and in the order received: no date appears twice among the groups, and
    the group of a date is exactly the slots of that date in their original
    order (there is no group for a date without slots). *)
Theorem groupSlotsByDate_files_by_date (slots : list (string * Slot)) :
  NoDup (map fst (groupSlotsByDate slots))
  /\ forall date,
       group_of date (groupSlotsByDate slots) =
       match slots_on date slots with
       | [] => None
       | g => Some g
       end.
Proof.
  induction slots as [| slot slots [IHkeys IHgroups]] using rev_ind.
  - split; [apply NoDup_nil_2 | reflexivity].
  - rewrite groupSlotsByDate_snoc. split.
    + rewrite keys_push.
      destruct (existsb _ _) eqn:E; [exact IHkeys |].
      apply NoDup_app. split; [exact IHkeys |].
      split; [| apply NoDup_singleton].
      intros x Hx Hin. apply list_elem_of_In in Hx.
      apply list_elem_of_In in Hin. destruct Hin as [<- | []].
      assert (existsb (String.eqb (slot_date (snd slot)))
                (map fst (groupSlotsByDate slots)) = true); [| congruence].
      apply existsb_exists. eexists.
      split; [exact Hx | apply String.eqb_refl].
    + intros date. rewrite group_of_push, slots_on_snoc, IHgroups.
      destruct (String.eqb _ date).
      * destruct (slots_on date slots); reflexivity.
      * rewrite app_nil_r. reflexivity.
Qed.
